(** * annuity-pricing: behavioural laws, pricers, scenario generator and
      validation gates, embedded from the Python sources.

    Python [float] values are modelled as real numbers ([R]) with exact
    arithmetic, Python [int] values as [Z], [Optional[T]] as [option T],
    numpy arrays as lists, and a raised exception as the [Raise] case of
    [outcome], carrying the fixed part of its message.  Random draws are
    inputs of the functions that consume them.  Rounding is not modelled;
    the one float operation of the sources that raises on overflow, the
    power of the lapse model, does so in the model as well. *)

From Stdlib Require Import Reals Lra Lia ZArith List String Bool.
Import ListNotations.

Open Scope R_scope.

(* ================================================================== *)
(** * Part I: the embedding *)

(* ------------------------------------------------------------------ *)
(** ** Exceptions *)

Inductive outcome (A : Type) : Type :=
| Ok (a : A)
| Raise (msg : string).
Arguments Ok {A} a.
Arguments Raise {A} msg.

Definition bind {A B : Type} (m : outcome A) (k : A -> outcome B) : outcome B :=
  match m with
  | Ok a => k a
  | Raise msg => Raise msg
  end.

Notation "x <- m ;; k" := (bind m (fun x => k))
  (at level 61, m at next level, right associativity).
Notation "' pat <- m ;; k" :=
  (bind m (fun x => match x with pat => k end))
  (at level 61, pat pattern, m at next level, right associativity).

Definition is_ok {A : Type} (m : outcome A) : bool :=
  match m with Ok _ => true | Raise _ => false end.

(* ------------------------------------------------------------------ *)
(** ** Float comparisons and numpy helpers *)

Definition Rltb (x y : R) : bool := if Rlt_dec x y then true else false.
Definition Rleb (x y : R) : bool := if Rle_dec x y then true else false.
Definition Rgtb (x y : R) : bool := Rltb y x.
Definition Rgeb (x y : R) : bool := Rleb y x.

(** [np.clip(x, lo, hi)] is [minimum(maximum(x, lo), hi)]. *)
Definition np_clip (x lo hi : R) : R := Rmin (Rmax x lo) hi.

(** The largest finite binary64 number, (2 - 2^-52) * 2^1023, and the
    smallest positive normal one, 2^-1022 ([sys.float_info.max] and
    [sys.float_info.min]). *)
Definition float_max : R := IZR (2 ^ 1024 - 2 ^ 971).
Definition float_min : R := / IZR (2 ^ 1022).

(** [x ** y] on Python floats; the sources only use it with a positive
    base.  The float power raises OverflowError when its result leaves the
    binary64 range.  Rounding is not modelled: the power overflows when its
    exact value exceeds [float_max]. *)
Definition py_pow (x y : R) : outcome R :=
  if Rgtb (Rpower x y) float_max then
    Raise "OverflowError: Numerical result out of range"
  else Ok (Rpower x y).

(** [x ** y] when [x] is a numpy scalar: numpy's power never raises; on
    overflow it warns and gives inf, for which the exact power stands. *)
Definition np_power (x y : R) : outcome R := Ok (Rpower x y).

(* ------------------------------------------------------------------ *)
(** ** behavioral/dynamic_lapse.py *)

Module DynamicLapse.

Record LapseAssumptions : Type := mkLapseAssumptions {
  base_annual_lapse : R;
  min_lapse : R;
  max_lapse : R;
  sensitivity : R
}.

Definition default_assumptions : LapseAssumptions :=
  mkLapseAssumptions 0.05 0.01 0.25 1.

Record LapseResult : Type := mkLapseResult {
  lapse_rate : R;
  moneyness : R;
  adjustment_factor : R
}.

(** [calculate_lapse], with the power that [**] dispatches to: the
    operator is the float power on Python floats and numpy's power on
    numpy scalars. *)
Definition calculate_lapse_with (power : R -> R -> outcome R)
    (a : LapseAssumptions) (gwb av : R)
    (surrender_period_complete : bool) : outcome LapseResult :=
  if Rleb av 0 then Raise "Account value must be positive"
  else if Rltb gwb 0 then Raise "GWB cannot be negative"
  else
    let moneyness := if Rgtb gwb 0 then av / gwb else 1 in
    adjustment_factor <- power moneyness (sensitivity a) ;;
    let base_rate := base_annual_lapse a in
    let base_rate :=
      if negb surrender_period_complete then base_rate * 0.2 else base_rate in
    let lapse_rate := base_rate * adjustment_factor in
    let lapse_rate := np_clip lapse_rate (min_lapse a) (max_lapse a) in
    Ok (mkLapseResult lapse_rate moneyness adjustment_factor).

(** Called with Python floats. *)
Definition calculate_lapse : LapseAssumptions -> R -> R -> bool ->
    outcome LapseResult :=
  calculate_lapse_with py_pow.

(** Called with numpy scalars, as the elements of an array are. *)
Definition calculate_lapse_np : LapseAssumptions -> R -> R -> bool ->
    outcome LapseResult :=
  calculate_lapse_with np_power.

(** The loop of [calculate_survival_probability]: [s] is [survival[t]] and
    the list returned is [survival[t+1 ..]]. *)
Fixpoint survival_loop (s : R) (lapse_rates : list R) (dt : R) : list R :=
  match lapse_rates with
  | [] => []
  | l :: rest =>
      let prob_stay := 1 - l * dt in
      let s' := s * Rmax prob_stay 0 in
      s' :: survival_loop s' rest dt
  end.

Definition calculate_survival_probability (lapse_rates : list R) (dt : R)
    : list R :=
  1 :: survival_loop 1 lapse_rates dt.

End DynamicLapse.

(* ------------------------------------------------------------------ *)
(** ** behavioral/withdrawal.py *)

Module Withdrawal.

Record WithdrawalAssumptions : Type := mkWithdrawalAssumptions {
  base_utilization : R;
  age_sensitivity : R;
  min_utilization : R;
  max_utilization : R
}.

Definition default_assumptions : WithdrawalAssumptions :=
  mkWithdrawalAssumptions 0.70 0.01 0.30 1.

Record WithdrawalResult : Type := mkWithdrawalResult {
  withdrawal_amount : R;
  utilization_rate : R;
  max_allowed : R
}.

Definition _calculate_utilization (a : WithdrawalAssumptions) (age : Z)
    (years_since_first_withdrawal : Z) : R :=
  let utilization := base_utilization a in
  let age_adjustment := age_sensitivity a * IZR (Z.max 0 (age - 65)) in
  let utilization := utilization + age_adjustment in
  let utilization :=
    if (years_since_first_withdrawal <? 3)%Z then
      let ramp_factor := 0.7 + 0.1 * IZR years_since_first_withdrawal in
      utilization * ramp_factor
    else utilization in
  np_clip utilization (min_utilization a) (max_utilization a).

Definition calculate_withdrawal (a : WithdrawalAssumptions) (gwb : R)
    (withdrawal_rate : R) (age : Z) (years_since_first_withdrawal : Z)
    : outcome WithdrawalResult :=
  if Rltb gwb 0 then Raise "GWB cannot be negative"
  else if Rltb withdrawal_rate 0 || Rgtb withdrawal_rate 1 then
    Raise "Withdrawal rate must be in [0, 1]"
  else
    let max_allowed := gwb * withdrawal_rate in
    let utilization := _calculate_utilization a age years_since_first_withdrawal in
    let withdrawal_amount := max_allowed * utilization in
    Ok (mkWithdrawalResult withdrawal_amount utilization max_allowed).

End Withdrawal.

(* ------------------------------------------------------------------ *)
(** ** regulatory/scenarios.py *)

Module Scenarios.

(** A 2-d numpy array is a list of rows, one row per scenario. *)
Definition matrix : Type := list (list R).

Record EconomicScenario : Type := mkEconomicScenario {
  rates : list R;
  equity_returns : list R;
  scenario_id : Z
}.

(** Construction of an [EconomicScenario] runs [__post_init__]. *)
Definition new_EconomicScenario (rates equity_returns : list R)
    (scenario_id : Z) : outcome EconomicScenario :=
  if negb (Nat.eqb (List.length rates) (List.length equity_returns)) then
    Raise "Rate path length must match equity path length"
  else Ok (mkEconomicScenario rates equity_returns scenario_id).

Record AG43Scenarios : Type := mkAG43Scenarios {
  scenarios : list EconomicScenario;
  n_scenarios_of : Z;
  projection_years_of : Z
}.

Definition get_rate_matrix (s : AG43Scenarios) : matrix :=
  map rates (scenarios s).

Record VasicekParams : Type := mkVasicekParams {
  kappa : R;
  theta : R;
  vasicek_sigma : R
}.

Definition default_VasicekParams : VasicekParams :=
  mkVasicekParams 0.20 0.04 0.01.

Record EquityParams : Type := mkEquityParams {
  mu : R;
  equity_sigma : R
}.

Definition default_EquityParams : EquityParams := mkEquityParams 0.07 0.18.

Record ScenarioGenerator : Type := mkScenarioGenerator {
  n_scenarios : nat;
  projection_years : nat;
  seed : option Z
}.

(** [ScenarioGenerator.__init__]: both counts must be positive. *)
Definition new_ScenarioGenerator (n_scenarios projection_years : Z)
    (seed : option Z) : outcome ScenarioGenerator :=
  if (n_scenarios <=? 0)%Z then Raise "n_scenarios must be positive"
  else if (projection_years <=? 0)%Z then
    Raise "projection_years must be positive"
  else Ok (mkScenarioGenerator (Z.to_nat n_scenarios)
             (Z.to_nat projection_years) seed).

(** [rng.standard_normal((n_scenarios, projection_years))]: the draw is an
    input, given as the value drawn for scenario [i] and year [t]. *)
Definition standard_normal (draw : nat -> nat -> R) (n_rows n_cols : nat)
    : matrix :=
  map (fun i => map (fun t => draw i t) (seq 0 n_cols)) (seq 0 n_rows).

(** Element-wise operations on arrays. *)
Definition scale (c : R) (m : matrix) : matrix := map (map (Rmult c)) m.

Fixpoint add_rows (a b : list R) : list R :=
  match a, b with
  | x :: a', y :: b' => (x + y) :: add_rows a' b'
  | _, _ => []
  end.

Fixpoint add (a b : matrix) : matrix :=
  match a, b with
  | x :: a', y :: b' => add_rows x y :: add a' b'
  | _, _ => []
  end.

Definition _generate_correlated_shocks (self : ScenarioGenerator)
    (correlation : R) (draw1 draw2 : nat -> nat -> R) : matrix * matrix :=
  let z1 := standard_normal draw1 (n_scenarios self) (projection_years self) in
  let z2 := standard_normal draw2 (n_scenarios self) (projection_years self) in
  let rate_shocks := z1 in
  let equity_shocks :=
    add (scale correlation z1) (scale (sqrt (1 - correlation ^ 2)) z2) in
  (rate_shocks, equity_shocks).

(** One scenario's row of the loop over [t] in [_generate_vasicek_paths];
    the source runs the same update on all rows at once. *)
Fixpoint vasicek_row (params : VasicekParams) (r_prev : R) (shocks : list R)
    : list R :=
  match shocks with
  | [] => []
  | z :: rest =>
      let r_new :=
        r_prev + kappa params * (theta params - r_prev)
        + vasicek_sigma params * z in
      let r := Rmax r_new 0 in
      r :: vasicek_row params r rest
  end.

Definition _generate_vasicek_paths (initial_rate : R) (params : VasicekParams)
    (shocks : matrix) : matrix :=
  map (vasicek_row params initial_rate) shocks.

Definition _generate_gbm_returns (params : EquityParams) (shocks : matrix)
    : matrix :=
  map (map (fun z =>
    let log_return :=
      (mu params - 0.5 * equity_sigma params ^ 2) + equity_sigma params * z in
    exp log_return - 1)) shocks.

(** The loop building the scenario objects, [i] counting from [start]. *)
Fixpoint build_scenarios (rate_paths equity_paths : matrix) (n : nat)
    (start : nat) : outcome (list EconomicScenario) :=
  match n with
  | O => Ok []
  | S n' =>
      match nth_error rate_paths start, nth_error equity_paths start with
      | Some rs, Some es =>
          scenario <- new_EconomicScenario rs es (Z.of_nat start) ;;
          rest <- build_scenarios rate_paths equity_paths n' (S start) ;;
          Ok (scenario :: rest)
      | _, _ => Raise "index out of bounds"
      end
  end.

Definition generate_ag43_scenarios (self : ScenarioGenerator)
    (initial_rate : R) (rate_params : option VasicekParams)
    (equity_params : option EquityParams) (correlation : R)
    (draw1 draw2 : nat -> nat -> R) : outcome AG43Scenarios :=
  if negb (Rleb (-1) correlation && Rleb correlation 1) then
    Raise "Correlation must be in [-1, 1]"
  else
    let rate_params :=
      match rate_params with Some p => p | None => default_VasicekParams end in
    let equity_params :=
      match equity_params with Some p => p | None => default_EquityParams end in
    let '(rate_shocks, equity_shocks) :=
      _generate_correlated_shocks self correlation draw1 draw2 in
    let rate_paths :=
      _generate_vasicek_paths initial_rate rate_params rate_shocks in
    let equity_paths := _generate_gbm_returns equity_params equity_shocks in
    scenarios <- build_scenarios rate_paths equity_paths (n_scenarios self) 0 ;;
    Ok (mkAG43Scenarios scenarios (Z.of_nat (n_scenarios self))
          (Z.of_nat (projection_years self))).

Definition generate_rate_scenarios (self : ScenarioGenerator)
    (initial_rate : R) (params : option VasicekParams)
    (draw : nat -> nat -> R) : outcome matrix :=
  if Rltb initial_rate 0 then Raise "Initial rate cannot be negative"
  else
    let params :=
      match params with Some p => p | None => default_VasicekParams end in
    let shocks :=
      standard_normal draw (n_scenarios self) (projection_years self) in
    Ok (_generate_vasicek_paths initial_rate params shocks).

End Scenarios.

(* ------------------------------------------------------------------ *)
(** ** glwb/path_sim.py *)

Module PathSim.

Inductive RollupType : Type := SimpleRollup | CompoundRollup | NoRollup.
Inductive FeeBasis : Type := FeeOnAV | FeeOnGWB.

(** Modelled from the spec: [GWBConfig] is declared in glwb/gwb_tracker.py,
    which is not among the sources; its fields are the eight that
    [calculate_fair_fee] copies, typed as the data model describes them. *)
Record GWBConfig : Type := mkGWBConfig {
  rollup_type : RollupType;
  rollup_rate : R;
  rollup_cap_years : Z;
  ratchet_enabled : bool;
  ratchet_frequency : Z;
  withdrawal_rate : R;
  fee_rate : R;
  fee_basis : FeeBasis
}.

Record GLWBPricingResult : Type := mkGLWBPricingResult {
  price_of : R;
  guarantee_cost : R;
  mean_payoff : R;
  std_payoff : R;
  standard_error : R;
  prob_ruin : R;
  mean_ruin_year : R;
  result_n_paths : Z
}.

(** The random generator of a simulator is created from [seed]. *)
Record GLWBPathSimulator : Type := mkGLWBPathSimulator {
  gwb_config : GWBConfig;
  n_paths : Z;
  seed : option Z
}.

Definition default_max_age : Z := 100%Z.
Definition default_target_cost : R := 0.
Definition default_fee_bounds : R * R := (0.001, 0.03).
Definition default_tolerance : R := 0.001.
Definition default_max_iterations : Z := 20%Z.

Section FairFee.

(** [GLWBPathSimulator.price(premium, age, r, sigma, max_age)]: the Monte
    Carlo pricer.  Its paths are stepped by the tracker of
    glwb/gwb_tracker.py and drawn from the generator seeded by the
    simulator, so a run is a function of the simulator and the arguments. *)
Variable price :
  GLWBPathSimulator -> R -> Z -> R -> R -> Z -> outcome GLWBPricingResult.

Variable self : GLWBPathSimulator.
Variables (premium : R) (age : Z) (r sigma : R) (max_age : Z).
Variables (target_cost tolerance : R).

(** The simulator that [cost_at_fee] constructs for a probe. *)
Definition probe_simulator (fee : R) : GLWBPathSimulator :=
  let config :=
    mkGWBConfig
      (rollup_type (gwb_config self))
      (rollup_rate (gwb_config self))
      (rollup_cap_years (gwb_config self))
      (ratchet_enabled (gwb_config self))
      (ratchet_frequency (gwb_config self))
      (withdrawal_rate (gwb_config self))
      fee
      (fee_basis (gwb_config self)) in
  mkGLWBPathSimulator config (n_paths self / 2)%Z (seed self).

Definition cost_at_fee (fee : R) : outcome R :=
  let sim := probe_simulator fee in
  result <- price sim premium age r sigma max_age ;;
  Ok (guarantee_cost result - target_cost).

(** The bisection loop.  Besides the value returned (or the exception
    raised) it yields the simulators that were constructed and run, in
    order: the pricing runs the call performs. *)
Fixpoint bisection_loop (iterations : nat) (low high : R)
    : outcome R * list GLWBPathSimulator :=
  match iterations with
  | O => (Ok ((low + high) / 2), [])
  | S iterations' =>
      let mid := (low + high) / 2 in
      match cost_at_fee mid with
      | Raise msg => (Raise msg, [probe_simulator mid])
      | Ok cost =>
          if Rltb (Rabs cost) tolerance then (Ok mid, [probe_simulator mid])
          else
            let '(res, runs) :=
              if Rgtb cost 0 then bisection_loop iterations' mid high
              else bisection_loop iterations' low mid in
            (res, probe_simulator mid :: runs)
      end
  end.

Definition calculate_fair_fee (fee_bounds : R * R) (max_iterations : Z)
    : outcome R * list GLWBPathSimulator :=
  let '(low, high) := fee_bounds in
  bisection_loop (Z.to_nat max_iterations) low high.

End FairFee.

End PathSim.

(* ------------------------------------------------------------------ *)
(** ** Product records and the base pricing result *)

Module Schemas.

(** Modelled from the spec: the product records are declared in
    data/schemas.py, which is not among the sources.  A product has the
    shared header (company, name, group, status) and the optional fields
    the pricers and the tests read. *)
Record FIAProduct : Type := mkFIAProduct {
  fia_company_name : string;
  fia_product_name : string;
  fia_product_group : string;
  fia_status : string;
  cap_rate : option R;
  participation_rate : option R;
  spread_rate : option R;
  performance_triggered_rate : option R
}.

Record RILAProduct : Type := mkRILAProduct {
  rila_company_name : string;
  rila_product_name : string;
  rila_product_group : string;
  rila_status : string;
  buffer_rate : option R;
  buffer_modifier : option string;
  rila_cap_rate : option R;
  rila_term_years : option Z
}.

(** What a pricer may be handed: [isinstance] is a match on the tag. *)
Inductive Product : Type :=
| IsFIA (p : FIAProduct)
| IsRILA (p : RILAProduct)
| OtherProduct (type_name : string).

End Schemas.

Module ProductsBase.

(** Modelled from the spec: [PricingResult] is declared in
    products/base.py, which is not among the sources.  The gates read
    [present_value] and [duration]; the valuation date and the free-form
    [details] are left out. *)
Record PricingResult : Type := mkPricingResult {
  present_value : R;
  duration : option R
}.

End ProductsBase.

(* ------------------------------------------------------------------ *)
(** ** products/fia.py *)

Module FIA.
Import Schemas ProductsBase.

Record FIAPricingResult : Type := mkFIAPricingResult {
  fia_base : PricingResult;
  embedded_option_value : R;
  option_budget : R;
  fair_cap : option R;
  fair_participation : option R;
  expected_credit : R
}.

Record MarketParams : Type := mkMarketParams {
  spot : R;
  risk_free_rate : R;
  dividend_yield : R;
  volatility : R
}.

Definition new_MarketParams (spot risk_free_rate dividend_yield volatility : R)
    : outcome MarketParams :=
  if Rleb spot 0 then Raise "CRITICAL: spot must be > 0"
  else if Rltb volatility 0 then Raise "CRITICAL: volatility must be >= 0"
  else Ok (mkMarketParams spot risk_free_rate dividend_yield volatility).

Record FIAPricer : Type := mkFIAPricer {
  market_params : MarketParams;
  option_budget_pct : R;
  n_mc_paths : Z;
  seed : option Z
}.

(** A crediting method and its parameter dict (keys in insertion order). *)
Definition params : Type := list (string * R).

Definition _determine_crediting_method (product : FIAProduct)
    : outcome (string * params) :=
  match cap_rate product with
  | Some cap => Ok ("cap"%string, [("cap_rate"%string, cap)])
  | None =>
    match participation_rate product with
    | Some par =>
        let params := [("participation_rate"%string, par)] in
        let params :=
          match cap_rate product with
          | Some cap => (params ++ [("cap_rate"%string, cap)])%list
          | None => params
          end in
        Ok ("participation"%string, params)
    | None =>
      match spread_rate product with
      | Some spread =>
          let params := [("spread_rate"%string, spread)] in
          let params :=
            match cap_rate product with
            | Some cap => (params ++ [("cap_rate"%string, cap)])%list
            | None => params
            end in
          Ok ("spread"%string, params)
      | None =>
        match performance_triggered_rate product with
        | Some trig => Ok ("trigger"%string, [("trigger_rate"%string, trig)])
        | None => Raise "FIA product has no crediting method"
        end
      end
    end
  end.

Section Price.

(** The option pricing, Monte Carlo and root-finding helpers of the
    pricer rest on options/pricing and options/simulation, which are not
    among the sources; each may raise. *)
Variable _price_embedded_option :
  FIAPricer -> string -> params -> R -> R -> outcome R.
Variable _calculate_expected_credit :
  FIAPricer -> string -> params -> R -> outcome R.
Variable _solve_fair_cap : FIAPricer -> R -> R -> R -> outcome (option R).
Variable _solve_fair_participation :
  FIAPricer -> R -> R -> R -> outcome (option R).

Definition price (self : FIAPricer) (product : Product) (term_years : R)
    (premium : R) : outcome FIAPricingResult :=
  match product with
  | IsFIA product =>
      '(method, params) <- _determine_crediting_method product ;;
      let option_budget := premium * option_budget_pct self in
      embedded_option_value <-
        _price_embedded_option self method params term_years premium ;;
      expected_credit <-
        _calculate_expected_credit self method params term_years ;;
      fair_cap <- _solve_fair_cap self term_years option_budget premium ;;
      fair_participation <-
        _solve_fair_participation self term_years option_budget premium ;;
      let discount_factor :=
        exp (- risk_free_rate (market_params self) * term_years) in
      let present_value := discount_factor * premium * (1 + expected_credit) in
      Ok (mkFIAPricingResult
            (mkPricingResult present_value (Some term_years))
            embedded_option_value option_budget fair_cap fair_participation
            expected_credit)
  | _ => Raise "CRITICAL: Expected FIAProduct"
  end.

End Price.

Definition default_term_years : R := 1.
Definition default_premium : R := 100.

End FIA.

(* ------------------------------------------------------------------ *)
(** ** products/rila.py *)

Module RILA.
Import Schemas ProductsBase.

Record RILAPricingResult : Type := mkRILAPricingResult {
  rila_base : PricingResult;
  protection_value : R;
  protection_type : string;
  upside_value : R;
  expected_return : R;
  max_loss : R;
  breakeven_return : option R
}.

Record MarketParams : Type := mkMarketParams {
  spot : R;
  risk_free_rate : R;
  dividend_yield : R;
  volatility : R
}.

Record RILAPricer : Type := mkRILAPricer {
  market_params : MarketParams;
  n_mc_paths : Z;
  seed : option Z
}.

Section Price.

(** [RILAProduct.is_buffer()] is a method of data/schemas.py, which is
    not among the sources: it tells a buffer from a floor by the
    product's textual modifier. *)
Variable is_buffer : RILAProduct -> bool.

(** The option pricing and Monte Carlo helpers of the pricer rest on
    options/pricing and options/simulation, which are not among the
    sources; each may raise.  [_calculate_breakeven] catches the error of
    its root finder and returns [None] instead. *)
Variable _price_protection : RILAPricer -> bool -> R -> R -> R -> outcome R.
Variable _price_upside : RILAPricer -> option R -> R -> R -> outcome R.
Variable _calculate_expected_return :
  RILAPricer -> bool -> R -> option R -> R -> outcome R.
Variable _calculate_breakeven :
  RILAPricer -> bool -> R -> option R -> option R.

(** [[F.1]] of [price]: the term is the argument or else the product's. *)
Definition resolve_term_years (product : RILAProduct)
    (term_years : option R) : outcome R :=
  let term_years :=
    match term_years with
    | Some t => Some t
    | None =>
        match rila_term_years product with
        | Some t => Some (IZR t)
        | None => None
        end
    end in
  match term_years with
  | None => Raise "CRITICAL: term_years required and must be > 0"
  | Some t =>
      if Rleb t 0 then Raise "CRITICAL: term_years required and must be > 0"
      else Ok t
  end.

Definition price (self : RILAPricer) (product : Product)
    (term_years : option R) (premium : R) : outcome RILAPricingResult :=
  match product with
  | IsRILA product =>
      term_years <- resolve_term_years product term_years ;;
      let is_buffer := is_buffer product in
      let protection_type := if is_buffer then "buffer"%string else "floor"%string in
      buffer_rate <-
        (if is_buffer then
           match buffer_rate product with
           | None => Raise "Buffer RILA missing buffer_rate"
           | Some b => Ok b
           end
         else
           match buffer_rate product with
           | None => Raise "Floor RILA missing floor_rate (buffer_rate field)"
           | Some b => Ok b
           end) ;;
      let cap_rate := rila_cap_rate product in
      let max_loss := if is_buffer then 1 - buffer_rate else buffer_rate in
      protection_value <-
        _price_protection self is_buffer buffer_rate term_years premium ;;
      upside_value <- _price_upside self cap_rate term_years premium ;;
      expected_return <-
        _calculate_expected_return self is_buffer buffer_rate cap_rate
          term_years ;;
      let breakeven_return :=
        _calculate_breakeven self is_buffer buffer_rate cap_rate in
      let discount_factor :=
        exp (- risk_free_rate (market_params self) * term_years) in
      let present_value := discount_factor * premium * (1 + expected_return) in
      Ok (mkRILAPricingResult
            (mkPricingResult present_value (Some term_years))
            protection_value protection_type upside_value expected_return
            max_loss breakeven_return)
  | _ => Raise "CRITICAL: Expected RILAProduct"
  end.

End Price.

Definition default_premium : R := 100.

End RILA.

(* ------------------------------------------------------------------ *)
(** ** validation/gates.py *)

Module Gates.
Import ProductsBase.

Inductive GateStatus : Type := PASS | HALT | WARN.

Definition GateStatus_eqb (a b : GateStatus) : bool :=
  match a, b with
  | PASS, PASS | HALT, HALT | WARN, WARN => true
  | _, _ => false
  end.

(** The formatted [message] text of a gate result is not modelled. *)
Record GateResult : Type := mkGateResult {
  status : GateStatus;
  gate_name : string;
  value : option R;
  threshold : option R
}.

Definition GateResult_passed (g : GateResult) : bool :=
  negb (GateStatus_eqb (status g) HALT).

Record ValidationReport : Type := mkValidationReport {
  results : list GateResult
}.

Definition overall_status (rep : ValidationReport) : GateStatus :=
  if existsb (fun r => GateStatus_eqb (status r) HALT) (results rep) then HALT
  else if existsb (fun r => GateStatus_eqb (status r) WARN) (results rep) then WARN
  else PASS.

Definition passed (rep : ValidationReport) : bool :=
  negb (GateStatus_eqb (overall_status rep) HALT).

Definition halted_gates (rep : ValidationReport) : list GateResult :=
  filter (fun r => GateStatus_eqb (status r) HALT) (results rep).

Definition warned_gates (rep : ValidationReport) : list GateResult :=
  filter (fun r => GateStatus_eqb (status r) WARN) (results rep).

(** A pricing result with its dynamic class, for the [isinstance] tests. *)
Inductive AnyResult : Type :=
| PlainResult (p : PricingResult)
| FIAResult (f : FIA.FIAPricingResult)
| RILAResult (r : RILA.RILAPricingResult).

Definition base (result : AnyResult) : PricingResult :=
  match result with
  | PlainResult p => p
  | FIAResult f => FIA.fia_base f
  | RILAResult r => RILA.rila_base r
  end.

(** The keyword context of a check: the keys the gates look up. *)
Record GateContext : Type := mkGateContext {
  ctx_premium : option R;
  ctx_cap_rate : option R;
  ctx_buffer_rate : option R
}.

Definition get_premium (context : GateContext) : R :=
  match ctx_premium context with Some p => p | None => 100 end.

Inductive ValidationGate : Type :=
| PresentValueBoundsGate (min_pv max_pv_multiple : R)
| DurationBoundsGate (max_duration : R)
| FIAOptionBudgetGate (tolerance : R)
| FIAExpectedCreditGate
| RILAMaxLossGate
| RILAProtectionValueGate (max_protection_pct : R)
| ArbitrageBoundsGate.

Definition PresentValueBoundsGate_check (min_pv max_pv_multiple : R)
    (result : AnyResult) (context : GateContext) : GateResult :=
  let name := "present_value_bounds"%string in
  let premium := get_premium context in
  let max_pv := premium * max_pv_multiple in
  let pv := present_value (base result) in
  if Rltb pv min_pv then mkGateResult HALT name (Some pv) (Some min_pv)
  else if Rgtb pv max_pv then mkGateResult HALT name (Some pv) (Some max_pv)
  else mkGateResult PASS name (Some pv) None.

Definition DurationBoundsGate_check (max_duration : R)
    (result : AnyResult) (context : GateContext) : GateResult :=
  let name := "duration_bounds"%string in
  match duration (base result) with
  | None => mkGateResult PASS name None None
  | Some d =>
      if Rltb d 0 then mkGateResult HALT name (Some d) (Some 0)
      else if Rgtb d max_duration then
        mkGateResult HALT name (Some d) (Some max_duration)
      else mkGateResult PASS name (Some d) None
  end.

Definition FIAOptionBudgetGate_check (tolerance : R)
    (result : AnyResult) (context : GateContext) : GateResult :=
  let name := "fia_option_budget"%string in
  match result with
  | FIAResult result =>
      if Rleb (FIA.option_budget result) 0 then
        mkGateResult WARN name (Some (FIA.option_budget result)) None
      else
        let ratio := FIA.embedded_option_value result / FIA.option_budget result in
        if Rgtb ratio (1 + tolerance) then
          mkGateResult WARN name (Some ratio) (Some (1 + tolerance))
        else mkGateResult PASS name (Some ratio) None
  | _ => mkGateResult PASS name None None
  end.

Definition FIAExpectedCreditGate_check
    (result : AnyResult) (context : GateContext) : GateResult :=
  let name := "fia_expected_credit"%string in
  match result with
  | FIAResult result =>
      let ec := FIA.expected_credit result in
      if Rltb ec (-0.001) then mkGateResult HALT name (Some ec) (Some 0)
      else
        match ctx_cap_rate context with
        | Some cap_rate =>
            if Rgtb ec (cap_rate + 0.02) then
              mkGateResult HALT name (Some ec) (Some cap_rate)
            else mkGateResult PASS name (Some ec) None
        | None => mkGateResult PASS name (Some ec) None
        end
  | _ => mkGateResult PASS name None None
  end.

Definition RILAMaxLossGate_check
    (result : AnyResult) (context : GateContext) : GateResult :=
  let name := "rila_max_loss"%string in
  match result with
  | RILAResult result =>
      let ml := RILA.max_loss result in
      let pass := mkGateResult PASS name (Some ml) None in
      if Rltb ml 0 then mkGateResult HALT name (Some ml) (Some 0)
      else if Rgtb ml 1 then mkGateResult HALT name (Some ml) (Some 1)
      else
        match ctx_buffer_rate context with
        | Some buffer_rate =>
            if String.eqb (RILA.protection_type result) "buffer" then
              let expected_max_loss := 1 - buffer_rate in
              if Rgtb (Rabs (ml - expected_max_loss)) 0.01 then
                mkGateResult WARN name (Some ml) (Some expected_max_loss)
              else pass
            else if String.eqb (RILA.protection_type result) "floor" then
              if Rgtb (Rabs (ml - buffer_rate)) 0.01 then
                mkGateResult WARN name (Some ml) (Some buffer_rate)
              else pass
            else pass
        | None => pass
        end
  | _ => mkGateResult PASS name None None
  end.

Definition RILAProtectionValueGate_check (max_protection_pct : R)
    (result : AnyResult) (context : GateContext) : GateResult :=
  let name := "rila_protection_value"%string in
  match result with
  | RILAResult result =>
      let pv := RILA.protection_value result in
      if Rltb pv 0 then mkGateResult HALT name (Some pv) (Some 0)
      else
        let premium := get_premium context in
        let max_protection := premium * max_protection_pct in
        if Rgtb pv max_protection then
          mkGateResult WARN name (Some pv) (Some max_protection)
        else mkGateResult PASS name (Some pv) None
  | _ => mkGateResult PASS name None None
  end.

(** Truth value of a float: zero is false. *)
Definition truthy (x : R) : bool := if Req_dec_T x 0 then false else true.

Definition ArbitrageBoundsGate_check
    (result : AnyResult) (context : GateContext) : GateResult :=
  let name := "arbitrage_bounds"%string in
  let premium := get_premium context in
  let pass := mkGateResult PASS name None None in
  match result with
  | FIAResult result =>
      if Rgtb (FIA.embedded_option_value result) premium then
        mkGateResult HALT name (Some (FIA.embedded_option_value result))
          (Some premium)
      else pass
  | RILAResult result =>
      let max_loss_value :=
        if truthy (RILA.max_loss result) then premium * RILA.max_loss result
        else premium in
      if Rgtb (RILA.protection_value result) max_loss_value then
        mkGateResult HALT name (Some (RILA.protection_value result))
          (Some max_loss_value)
      else pass
  | PlainResult _ => pass
  end.

Definition check (gate : ValidationGate) (result : AnyResult)
    (context : GateContext) : GateResult :=
  match gate with
  | PresentValueBoundsGate min_pv max_pv_multiple =>
      PresentValueBoundsGate_check min_pv max_pv_multiple result context
  | DurationBoundsGate max_duration =>
      DurationBoundsGate_check max_duration result context
  | FIAOptionBudgetGate tolerance =>
      FIAOptionBudgetGate_check tolerance result context
  | FIAExpectedCreditGate => FIAExpectedCreditGate_check result context
  | RILAMaxLossGate => RILAMaxLossGate_check result context
  | RILAProtectionValueGate max_protection_pct =>
      RILAProtectionValueGate_check max_protection_pct result context
  | ArbitrageBoundsGate => ArbitrageBoundsGate_check result context
  end.

Record ValidationEngine : Type := mkValidationEngine {
  gates : list ValidationGate
}.

Definition _default_gates : list ValidationGate :=
  [ PresentValueBoundsGate 0 10;
    DurationBoundsGate 30;
    FIAOptionBudgetGate 0.50;
    FIAExpectedCreditGate;
    RILAMaxLossGate;
    RILAProtectionValueGate 0.50;
    ArbitrageBoundsGate ].

Definition new_ValidationEngine (gates : option (list ValidationGate))
    : ValidationEngine :=
  mkValidationEngine
    (match gates with Some g => g | None => _default_gates end).

Definition validate (self : ValidationEngine) (result : AnyResult)
    (context : GateContext) : ValidationReport :=
  mkValidationReport (map (fun gate => check gate result context) (gates self)).

Definition validate_and_raise (self : ValidationEngine) (result : AnyResult)
    (context : GateContext) : outcome AnyResult :=
  let report := validate self result context in
  if negb (passed report) then Raise "CRITICAL: Validation failed."
  else Ok result.

Definition validate_pricing_result (result : AnyResult) (context : GateContext)
    : ValidationReport :=
  validate (new_ValidationEngine None) result context.

(** Severity order behind "worst status": PASS < WARN < HALT. *)
Definition severity (s : GateStatus) : nat :=
  match s with PASS => 0 | WARN => 1 | HALT => 2 end.

End Gates.

(* ------------------------------------------------------------------ *)
(** ** behavioral/dynamic_lapse.py and behavioral/withdrawal.py: paths *)

Module Paths.
Import DynamicLapse Withdrawal.

(** The loop of [calculate_path_lapses] from step [t] on; [gwb_path[t]]
    and [av_path[t]] are numpy scalars. *)
Fixpoint path_lapses_loop (a : LapseAssumptions) (gwb_path av_path : list R)
    (surrender_period_ends : Z) (t : nat) : outcome (list R) :=
  match gwb_path, av_path with
  | gwb :: gwb_rest, av :: av_rest =>
      let surrender_complete := (Z.of_nat t >=? surrender_period_ends)%Z in
      result <- calculate_lapse_np a gwb av surrender_complete ;;
      rest <- path_lapses_loop a gwb_rest av_rest surrender_period_ends (S t) ;;
      Ok (lapse_rate result :: rest)
  | _, _ => Ok []
  end.

Definition calculate_path_lapses (a : LapseAssumptions)
    (gwb_path av_path : list R) (surrender_period_ends : Z)
    : outcome (list R) :=
  if negb (Nat.eqb (List.length gwb_path) (List.length av_path)) then
    Raise "Path lengths must match"
  else path_lapses_loop a gwb_path av_path surrender_period_ends 0.

(** [int(x)] on a float: truncation towards zero. *)
Definition py_int (x : R) : Z :=
  if Rle_dec 0 x then Int_part x else (- Int_part (- x))%Z.

(** The loop of [calculate_path_withdrawals] from step [t] on. *)
Fixpoint path_withdrawals_loop (a : WithdrawalAssumptions)
    (gwb_path ages : list R) (withdrawal_rate : R) (first_withdrawal_year : Z)
    (t : nat) : outcome (list R) :=
  match gwb_path, ages with
  | gwb :: gwb_rest, age :: ages_rest =>
      if (Z.of_nat t >=? first_withdrawal_year)%Z then
        let years_since := (Z.of_nat t - first_withdrawal_year)%Z in
        result <- calculate_withdrawal a gwb withdrawal_rate (py_int age)
                    years_since ;;
        rest <- path_withdrawals_loop a gwb_rest ages_rest withdrawal_rate
                  first_withdrawal_year (S t) ;;
        Ok (withdrawal_amount result :: rest)
      else
        rest <- path_withdrawals_loop a gwb_rest ages_rest withdrawal_rate
                  first_withdrawal_year (S t) ;;
        Ok (0 :: rest)
  | _, _ => Ok []
  end.

Definition calculate_path_withdrawals (a : WithdrawalAssumptions)
    (gwb_path ages : list R) (withdrawal_rate : R) (first_withdrawal_year : Z)
    : outcome (list R) :=
  if negb (Nat.eqb (List.length gwb_path) (List.length ages)) then
    Raise "Path lengths must match"
  else
    path_withdrawals_loop a gwb_path ages withdrawal_rate
      first_withdrawal_year 0.

Definition get_withdrawal_rate_by_age (age : Z) : R :=
  if (age <? 55)%Z then 0.035
  else if (age <? 60)%Z then 0.040
  else if (age <? 65)%Z then 0.045
  else if (age <? 70)%Z then 0.050
  else if (age <? 75)%Z then 0.055
  else 0.060.

End Paths.

(* ------------------------------------------------------------------ *)
(** ** validation/gates.py: convenience entry point and HALT conditions *)

Module GatesExt.
Import ProductsBase Gates.

Definition ensure_valid (result : AnyResult) (context : GateContext)
    : outcome AnyResult :=
  validate_and_raise (new_ValidationEngine None) result context.

(** The conditions under which one of the default gates answers HALT,
    collected from the HALT branches of the seven [check] methods. *)
Definition base_halt (p : PricingResult) (context : GateContext) : Prop :=
  present_value p < 0
  \/ present_value p > get_premium context * 10
  \/ exists d, duration p = Some d /\ (d < 0 \/ d > 30).

Definition fia_halt (f : FIA.FIAPricingResult) (context : GateContext)
    : Prop :=
  FIA.expected_credit f < -0.001
  \/ (exists cap, ctx_cap_rate context = Some cap
                  /\ FIA.expected_credit f > cap + 0.02)
  \/ FIA.embedded_option_value f > get_premium context.

Definition rila_halt (r : RILA.RILAPricingResult) (context : GateContext)
    : Prop :=
  RILA.max_loss r < 0
  \/ RILA.max_loss r > 1
  \/ RILA.protection_value r < 0
  \/ (RILA.max_loss r <> 0
      /\ RILA.protection_value r > get_premium context * RILA.max_loss r)
  \/ (RILA.max_loss r = 0 /\ RILA.protection_value r > get_premium context).

Definition halt_condition (result : AnyResult) (context : GateContext)
    : Prop :=
  base_halt (base result) context
  \/ match result with
     | PlainResult _ => False
     | FIAResult f => fia_halt f context
     | RILAResult r => rila_halt r context
     end.

End GatesExt.

(* ------------------------------------------------------------------ *)
(** ** regulatory/scenarios.py: equity and deterministic scenarios *)

Module ScenariosExt.
Import Scenarios.

Definition generate_equity_scenarios (self : ScenarioGenerator)
    (mu sigma : R) (draw : nat -> nat -> R) : outcome matrix :=
  if Rltb sigma 0 then Raise "Volatility cannot be negative"
  else
    let params := mkEquityParams mu sigma in
    let shocks :=
      standard_normal draw (n_scenarios self) (projection_years self) in
    Ok (_generate_gbm_returns params shocks).

(** [np.full(n, v)]: numpy refuses a negative length. *)
Definition np_full (n : Z) (v : R) : outcome (list R) :=
  if (n <? 0)%Z then Raise "negative dimensions are not allowed"
  else Ok (repeat v (Z.to_nat n)).

Definition generate_deterministic_scenarios (n_years : Z)
    (base_rate base_equity : R) : outcome (list EconomicScenario) :=
  rs <- np_full n_years base_rate ;;
  es <- np_full n_years base_equity ;;
  base <- new_EconomicScenario rs es 0 ;;
  rs <- np_full n_years (base_rate + 0.02) ;;
  es <- np_full n_years (base_equity - 0.02) ;;
  rate_up <- new_EconomicScenario rs es 1 ;;
  rs <- np_full n_years (Rmax 0 (base_rate - 0.02)) ;;
  es <- np_full n_years (base_equity + 0.02) ;;
  rate_down <- new_EconomicScenario rs es 2 ;;
  Ok [base; rate_up; rate_down].

Definition default_n_years : Z := 30%Z.
Definition default_base_rate : R := 0.04.
Definition default_base_equity : R := 0.07.

End ScenariosExt.

(* ------------------------------------------------------------------ *)
(** ** glwb/path_sim.py: mortality and the single path *)

Module PathSimExt.
Import PathSim.

Record PathResult : Type := mkPathResult {
  pv_insurer_payments : R;
  pv_withdrawals : R;
  ruin_year : Z;
  final_av : R;
  final_gwb : R;
  death_year : Z
}.

Definition _default_mortality (age : Z) : R :=
  let qx := 0.0001 * exp (0.08 * IZR age) in
  Rmin qx 1.

Section SinglePath.

(** The tracker of glwb/gwb_tracker.py is not among the sources.  Its
    state is an abstract type with the two fields the simulator reads; its
    constructor with [initial_state], [calculate_max_withdrawal] and [step]
    are parameters, each of which may raise.  [step] yields the new state
    and the withdrawal taken. *)
Variable GWBState : Type.
Variable av : GWBState -> R.
Variable gwb : GWBState -> R.
Variable initial_state : GWBConfig -> R -> outcome GWBState.
Variable calculate_max_withdrawal : GWBConfig -> R -> GWBState -> outcome R.
Variable step :
  GWBConfig -> R -> GWBState -> R -> R -> R -> outcome (GWBState * R).

Variable self : GLWBPathSimulator.
Variables (premium r sigma : R).
Variable mortality_table : Z -> R.
Variable utilization_rate : R.

(** The draws of the path: [uniform t] is the [rng.random()] and
    [normal t] the [rng.standard_normal()] of year [t]. *)
Variables (uniform normal : nat -> R).

(** The loop over [t] of [simulate_single_path], [years_left] iterations
    from year [t] on. *)
Fixpoint path_loop (years_left t : nat) (state : GWBState)
    (pv_insurer_payments pv_withdrawals : R) (ruin_year : Z)
    (current_age : Z) : outcome PathResult :=
  match years_left with
  | O =>
      Ok (mkPathResult pv_insurer_payments pv_withdrawals ruin_year
            (av state) (gwb state) (-1))
  | S years_left' =>
      let qx := mortality_table current_age in
      if Rltb (uniform t) qx then
        Ok (mkPathResult pv_insurer_payments pv_withdrawals ruin_year
              (av state) (gwb state) (Z.of_nat t))
      else
        let z := normal t in
        let av_return := (r - 0.5 * sigma ^ 2) + sigma * z in
        max_withdrawal <-
          calculate_max_withdrawal (gwb_config self) premium state ;;
        let withdrawal := max_withdrawal * utilization_rate in
        ' (new_state, withdrawal_taken) <-
          step (gwb_config self) premium state av_return 1 withdrawal ;;
        let state := new_state in
        let df := exp (- r * (IZR (Z.of_nat t) + 1)) in
        let pv_withdrawals := pv_withdrawals + withdrawal_taken * df in
        let ruin_year :=
          if Rleb (av state) 0 && (ruin_year <? 0)%Z
          then (Z.of_nat t + 1)%Z else ruin_year in
        let pv_insurer_payments :=
          if Rleb (av state) 0
          then pv_insurer_payments + max_withdrawal * df
          else pv_insurer_payments in
        path_loop years_left' (S t) state pv_insurer_payments pv_withdrawals
          ruin_year (current_age + 1)%Z
  end.

Definition simulate_single_path (age : Z) (n_years : Z)
    : outcome PathResult :=
  state <- initial_state (gwb_config self) premium ;;
  path_loop (Z.to_nat n_years) 0 state 0 0 (-1) age.

End SinglePath.

End PathSimExt.

(* ------------------------------------------------------------------ *)
(** ** products/rila.py and products/fia.py: payoff and fair terms *)

Module RILAExt.

(** [payoff_minus_principal], the function whose root
    [_calculate_breakeven] searches for. *)
Definition payoff_minus_principal (is_buffer : bool) (buffer_rate : R)
    (cap_rate : option R) (index_return : R) : R :=
  if is_buffer then
    if Rgeb index_return 0 then
      match cap_rate with
      | Some cap => Rmin index_return cap
      | None => index_return
      end
    else if Rgtb index_return (- buffer_rate) then 0
    else index_return + buffer_rate
  else
    let floor_rate := - buffer_rate in
    if Rgeb index_return 0 then
      match cap_rate with
      | Some cap => Rmin index_return cap
      | None => index_return
      end
    else Rmax index_return floor_rate.

End RILAExt.

Module FIAExt.
Import FIA.

(** [params[key]]: a missing key raises. *)
Fixpoint lookup (ps : params) (key : string) : outcome R :=
  match ps with
  | [] => Raise "KeyError"
  | (k, v) :: rest => if String.eqb k key then Ok v else lookup rest key
  end.

Section BlackScholes.

(** The closed-form kernel of options/pricing/black_scholes.py is not
    among the sources: [black_scholes_call spot strike rate dividend
    volatility term] and [_calculate_d1_d2] may raise; [norm_cdf] is the
    standard normal distribution function. *)
Variable black_scholes_call : R -> R -> R -> R -> R -> R -> outcome R.
Variable _calculate_d1_d2 : R -> R -> R -> R -> R -> R -> outcome (R * R).
Variable norm_cdf : R -> R.

(** The spot of a [MarketParams] is positive by construction, so the
    divisions by it are plain divisions. *)
Definition _price_embedded_option (self : FIAPricer) (method : string)
    (ps : params) (term_years premium : R) : outcome R :=
  let m := market_params self in
  if String.eqb method "cap" then
    cap_rate <- lookup ps "cap_rate" ;;
    atm_call <-
      black_scholes_call (spot m) (spot m) (risk_free_rate m)
        (dividend_yield m) (volatility m) term_years ;;
    capped_call_value <-
      (if Rgtb cap_rate 0 then
         let cap_strike := spot m * (1 + cap_rate) in
         otm_call <-
           black_scholes_call (spot m) cap_strike (risk_free_rate m)
             (dividend_yield m) (volatility m) term_years ;;
         Ok (atm_call - otm_call)
       else Ok 0) ;;
    Ok ((capped_call_value / spot m) * premium)
  else if String.eqb method "participation" then
    par_rate <- lookup ps "participation_rate" ;;
    atm_call <-
      black_scholes_call (spot m) (spot m) (risk_free_rate m)
        (dividend_yield m) (volatility m) term_years ;;
    Ok (par_rate * (atm_call / spot m) * premium)
  else if String.eqb method "spread" then
    spread_rate <- lookup ps "spread_rate" ;;
    let effective_strike := spot m * (1 + spread_rate) in
    spread_call <-
      black_scholes_call (spot m) effective_strike (risk_free_rate m)
        (dividend_yield m) (volatility m) term_years ;;
    Ok ((spread_call / spot m) * premium)
  else if String.eqb method "trigger" then
    trigger_rate <- lookup ps "trigger_rate" ;;
    ' (d1, d2) <-
      _calculate_d1_d2 (spot m) (spot m) (risk_free_rate m)
        (dividend_yield m) (volatility m) term_years ;;
    let prob_itm := norm_cdf d2 in
    let discount_factor := exp (- risk_free_rate m * term_years) in
    Ok (discount_factor * trigger_rate * premium * prob_itm)
  else Ok 0.

(** Dividing the budget by a zero premium raises ZeroDivisionError. *)
Definition _solve_fair_participation (self : FIAPricer)
    (term_years option_budget premium : R) : outcome R :=
  let m := market_params self in
  atm_call <-
    black_scholes_call (spot m) (spot m) (risk_free_rate m)
      (dividend_yield m) (volatility m) term_years ;;
  let atm_call_pct := atm_call / spot m in
  if Rltb atm_call_pct 1e-10 then Ok 0
  else if Req_dec_T premium 0 then Raise "float division by zero"
  else
    let budget_pct := option_budget / premium in
    let participation := budget_pct / atm_call_pct in
    Ok participation.

End BlackScholes.

End FIAExt.

(* ------------------------------------------------------------------ *)
(** ** Sample inputs and auxiliary predicates *)

(** A priced FIA whose embedded option value is twice its budget. *)
Definition over_budget_fia : FIA.FIAPricingResult :=
  FIA.mkFIAPricingResult (ProductsBase.mkPricingResult 100 (Some 1))
    2 1 None None 0.05.

(** No crediting field is set. *)
Definition no_crediting_method (product : Schemas.FIAProduct) : Prop :=
  Schemas.cap_rate product = None /\ Schemas.participation_rate product = None
  /\ Schemas.spread_rate product = None
  /\ Schemas.performance_triggered_rate product = None.

(** The product of the unit test [test_no_crediting_method]. *)
Definition no_method_product : Schemas.FIAProduct :=
  Schemas.mkFIAProduct "Test" "No Method" "FIA" "current" None None None None.

(** Lapse assumptions whose base rate is negative; the dataclass takes them
    as they are. *)
Definition negative_base_assumptions : DynamicLapse.LapseAssumptions :=
  DynamicLapse.mkLapseAssumptions (-0.05) (-1) 1 1.

(** The ramp of the specification: 0.7, 0.8, 0.9 in the first three
    withdrawal years (years 0, 1, 2 since the first withdrawal), 1 after. *)
Definition spec_ramp (years_since_first_withdrawal : Z) : R :=
  match years_since_first_withdrawal with
  | 0%Z => 0.7
  | 1%Z => 0.8
  | 2%Z => 0.9
  | _ => 1
  end.

(** The buffer and floor products of the unit tests, and a reading of the
    modifier that tells them apart. *)
Definition buffer_product : Schemas.RILAProduct :=
  Schemas.mkRILAProduct "Test Life" "10% Buffer S&P" "RILA" "current"
    (Some 0.10) (Some "Losses Covered Up To"%string) (Some 0.15) None.

Definition floor_product : Schemas.RILAProduct :=
  Schemas.mkRILAProduct "Test Life" "10% Floor S&P" "RILA" "current"
    (Some 0.10) (Some "Losses Covered After"%string) (Some 0.15) None.

Definition sample_is_buffer (p : Schemas.RILAProduct) : bool :=
  match Schemas.buffer_modifier p with
  | Some m => String.eqb m "Losses Covered Up To"
  | None => false
  end.

Definition sample_rila_pricer : RILA.RILAPricer :=
  RILA.mkRILAPricer (RILA.mkMarketParams 100 0.05 0.02 0.20) 10000 (Some 42%Z).

(** A simulator with the documented configuration, and a pricer under
    which the guarantee costs nothing at any fee. *)
Definition sample_simulator : PathSim.GLWBPathSimulator :=
  PathSim.mkGLWBPathSimulator
    (PathSim.mkGWBConfig PathSim.CompoundRollup 0.05 10 true 1 0.05 0.01
       PathSim.FeeOnAV)
    10000 (Some 5678%Z).

Definition costless_price (sim : PathSim.GLWBPathSimulator) (premium : R)
    (age : Z) (r sigma : R) (max_age : Z)
    : outcome PathSim.GLWBPricingResult :=
  Ok (PathSim.mkGLWBPricingResult 0 0 0 0 0 0 (-1) (PathSim.n_paths sim)).

Section FairFeeStopping.
Import PathSim.

Variable price :
  GLWBPathSimulator -> R -> Z -> R -> R -> Z -> outcome GLWBPricingResult.
Variable self : GLWBPathSimulator.
Variables (premium : R) (age : Z) (r sigma : R) (max_age : Z).
Variables (target_cost tolerance : R).

Let cost_at_fee :=
  cost_at_fee price self premium age r sigma max_age target_cost.

(** A probe whose cost is still off target by the tolerance or more. *)
Definition off_target (fee : R) : Prop :=
  exists c, cost_at_fee fee = Ok c /\ tolerance <= Rabs c.

(** A probe whose cost is within the tolerance of the target. *)
Definition on_target (fee : R) : Prop :=
  exists c, cost_at_fee fee = Ok c /\ Rabs c < tolerance.

(** How a run over the probed [fees] can end with [res] after at most
    [cap] iterations. *)
Definition stops (cap : nat) (fees : list R) (res : outcome R) : Prop :=
  match res with
  | Ok fee =>
      (exists init, fees = (init ++ [fee])%list /\ Forall off_target init
                    /\ on_target fee)
      \/ (List.length fees = cap /\ Forall off_target fees)
  | Raise msg =>
      exists init fee, fees = (init ++ [fee])%list /\ Forall off_target init
                       /\ cost_at_fee fee = Raise msg
  end.

(** One bisection run, step by step: from the bracket (low, high) with
    [cap] iterations left, the probed [fees] and how the run ends.  Every
    probe is the midpoint of the current bracket; a probe whose cost is
    above the target by the tolerance or more moves the lower end up to it,
    one at or below moves the upper end down to it; once the cap is used up
    the midpoint of the last bracket is returned without being priced. *)
Inductive bisects : nat -> R -> R -> list R -> outcome R -> Prop :=
| bisects_cap (low high : R) :
    bisects 0 low high [] (Ok ((low + high) / 2))
| bisects_found (cap : nat) (low high : R) :
    on_target ((low + high) / 2) ->
    bisects (S cap) low high [(low + high) / 2] (Ok ((low + high) / 2))
| bisects_raise (cap : nat) (low high : R) (msg : string) :
    cost_at_fee ((low + high) / 2) = Raise msg ->
    bisects (S cap) low high [(low + high) / 2] (Raise msg)
| bisects_upper (cap : nat) (low high c : R) (fees : list R)
      (res : outcome R) :
    cost_at_fee ((low + high) / 2) = Ok c ->
    tolerance <= Rabs c -> 0 < c ->
    bisects cap ((low + high) / 2) high fees res ->
    bisects (S cap) low high ((low + high) / 2 :: fees) res
| bisects_lower (cap : nat) (low high c : R) (fees : list R)
      (res : outcome R) :
    cost_at_fee ((low + high) / 2) = Ok c ->
    tolerance <= Rabs c -> c <= 0 ->
    bisects cap low ((low + high) / 2) fees res ->
    bisects (S cap) low high ((low + high) / 2 :: fees) res.

End FairFeeStopping.


(** A buffer product whose rate is above 100%, and an FIA product with a
    cap, for the pricers and gates. *)
Definition wide_buffer_product : Schemas.RILAProduct :=
  Schemas.mkRILAProduct "Test Life" "150% Buffer" "RILA" "current"
    (Some 1.5) (Some "Losses Covered Up To"%string) (Some 0.15) None.

Definition cap_product : Schemas.FIAProduct :=
  Schemas.mkFIAProduct "Test" "Cap 8%" "FIA" "current" (Some 0.08) None None
    None.

Definition sample_fia_pricer : FIA.FIAPricer :=
  FIA.mkFIAPricer (FIA.mkMarketParams 100 0.05 0.02 0.20) 0.03 100000 None.

(** A toy tracker for the path simulator: the state is the pair
    (AV, GWB), the allowed withdrawal is 5% of the GWB and the account is
    exhausted by the first step. *)
Definition toy_initial_state (config : PathSim.GWBConfig) (premium : R)
    : outcome (R * R) :=
  Ok (premium, premium).

Definition toy_max_withdrawal (config : PathSim.GWBConfig) (premium : R)
    (state : R * R) : outcome R :=
  Ok (snd state * 0.05).

Definition toy_step (config : PathSim.GWBConfig) (premium : R)
    (state : R * R) (av_return dt withdrawal : R) : outcome ((R * R) * R) :=
  Ok ((0, snd state), withdrawal).

(** A stand-in for the option kernel that, like the real one, rejects a
    strike that is not positive. *)
Definition positive_strike_call (spot strike rate dividend volatility
    term : R) : outcome R :=
  if Rleb strike 0 then Raise "CRITICAL: strike must be > 0" else Ok 10.

(** The value a lookup must return for a rate that is set. *)
Definition Ok_rate (rate : option R) : outcome R :=
  match rate with
  | Some v => Ok v
  | None => Raise "KeyError"
  end.

(** The moneyness of the specification: m = AV/GWB when GWB > 0 and
    m = 1 when GWB = 0. *)
Definition moneyness_of (gwb av : R) : R :=
  if Rgtb gwb 0 then av / gwb else 1.

(** Lapse assumptions with a quadratic response to moneyness. *)
Definition steep_assumptions : DynamicLapse.LapseAssumptions :=
  DynamicLapse.mkLapseAssumptions 0.05 0.01 0.25 2.

(* ================================================================== *)
(** * Part II: properties *)

(* ------------------------------------------------------------------ *)
(** ** Comparisons and clipping *)

Lemma Rltb_true (x y : R) : Rltb x y = true <-> x < y.
Proof. unfold Rltb; destruct (Rlt_dec x y); split; intros; easy. Qed.

Lemma Rltb_false (x y : R) : Rltb x y = false <-> y <= x.
Proof. unfold Rltb; destruct (Rlt_dec x y); split; intros; try easy; lra. Qed.

Lemma Rleb_true (x y : R) : Rleb x y = true <-> x <= y.
Proof. unfold Rleb; destruct (Rle_dec x y); split; intros; easy. Qed.

Lemma Rleb_false (x y : R) : Rleb x y = false <-> y < x.
Proof. unfold Rleb; destruct (Rle_dec x y); split; intros; try easy; lra. Qed.

Lemma Rgtb_true (x y : R) : Rgtb x y = true <-> x > y.
Proof. unfold Rgtb; rewrite Rltb_true; lra. Qed.

Lemma Rgtb_false (x y : R) : Rgtb x y = false <-> x <= y.
Proof. unfold Rgtb; rewrite Rltb_false; lra. Qed.

(** Settle every float comparison in the goal by linear arithmetic over
    the hypotheses. *)
Ltac Rcompare :=
  unfold Rgtb, Rgeb, Rltb, Rleb in *;
  repeat match goal with
  | |- context [Rlt_dec ?a ?b] => destruct (Rlt_dec a b); try lra
  | |- context [Rle_dec ?a ?b] => destruct (Rle_dec a b); try lra
  | |- context [Req_dec_T ?a ?b] => destruct (Req_dec_T a b); try lra
  end.

Lemma np_clip_mono (x y lo hi : R) :
  x <= y -> np_clip x lo hi <= np_clip y lo hi.
Proof.
  intros Hxy; unfold np_clip.
  apply Rle_min_compat_r, Rle_max_compat_r; exact Hxy.
Qed.

(* ------------------------------------------------------------------ *)
(** ** Validation report *)

Section ReportFacts.
Import Gates.

Lemma GateStatus_eqb_eq (a b : GateStatus) :
  GateStatus_eqb a b = true <-> a = b.
Proof. destruct a, b; simpl; split; intros; easy. Qed.

Lemma has_status_spec (s : GateStatus) (rs : list GateResult) :
  existsb (fun r => GateStatus_eqb (status r) s) rs = true
  <-> exists r, In r rs /\ status r = s.
Proof.
  rewrite existsb_exists; split; intros [r [Hin Hr]]; exists r; split;
    try assumption; now apply GateStatus_eqb_eq.
Qed.

Lemma overall_status_HALT_iff (rep : ValidationReport) :
  overall_status rep = HALT
  <-> exists r, In r (results rep) /\ status r = HALT.
Proof.
  unfold overall_status; rewrite <- has_status_spec.
  destruct (existsb _ (results rep)); [easy |].
  destruct (existsb _ (results rep)); split; intros; easy.
Qed.

Lemma overall_status_PASS_iff (rep : ValidationReport) :
  overall_status rep = PASS
  <-> forall r, In r (results rep) -> status r = PASS.
Proof.
  unfold overall_status.
  destruct (existsb _ (results rep)) eqn:Hh.
  { apply has_status_spec in Hh; destruct Hh as [r [Hin Hr]].
    split; [easy |]. intros H; specialize (H r Hin); congruence. }
  destruct (existsb (fun r => GateStatus_eqb (status r) WARN) _) eqn:Hw.
  { apply has_status_spec in Hw; destruct Hw as [r [Hin Hr]].
    split; [easy |]. intros H; specialize (H r Hin); congruence. }
  split; [intros _ r Hin | easy].
  destruct (status r) eqn:Hr; [reflexivity | |].
  - assert (existsb (fun r => GateStatus_eqb (status r) HALT) (results rep)
            = true) by (apply has_status_spec; eauto).
    congruence.
  - assert (existsb (fun r => GateStatus_eqb (status r) WARN) (results rep)
            = true) by (apply has_status_spec; eauto).
    congruence.
Qed.

Lemma overall_status_WARN_iff (rep : ValidationReport) :
  overall_status rep = WARN
  <-> (forall r, In r (results rep) -> status r <> HALT)
      /\ exists r, In r (results rep) /\ status r = WARN.
Proof.
  assert (HH := has_status_spec HALT (results rep)).
  assert (HW := has_status_spec WARN (results rep)).
  unfold overall_status.
  destruct (existsb (fun r => GateStatus_eqb (status r) HALT) (results rep)).
  { split; [easy |]. intros [Hno _].
    destruct (proj1 HH eq_refl) as [r [Hin Hr]]. now elim (Hno r Hin). }
  destruct (existsb (fun r => GateStatus_eqb (status r) WARN) (results rep)).
  - split; [intros _ | easy]. split; [| now apply HW].
    intros r Hin Hr. assert (false = true) by (apply HH; eauto). discriminate.
  - split; [easy |]. intros [_ Hex]. apply HW in Hex. discriminate.
Qed.

End ReportFacts.

(** C3.  The overall status of a report is the worst status among its gate
    results: HALT as soon as one result is HALT, otherwise WARN as soon as
    one result is WARN, otherwise PASS; no result is more severe than the
    overall status, and the overall status is PASS or the status of one of
    the results. *)
Theorem overall_status_is_worst (rep : Gates.ValidationReport) :
  let any s := exists r, In r (Gates.results rep) /\ Gates.status r = s in
  (any Gates.HALT -> Gates.overall_status rep = Gates.HALT)
  /\ (~ any Gates.HALT -> any Gates.WARN ->
      Gates.overall_status rep = Gates.WARN)
  /\ (~ any Gates.HALT -> ~ any Gates.WARN ->
      Gates.overall_status rep = Gates.PASS)
  /\ (forall r, In r (Gates.results rep) ->
      (Gates.severity (Gates.status r)
       <= Gates.severity (Gates.overall_status rep))%nat)
  /\ (Gates.overall_status rep = Gates.PASS
      \/ exists r, In r (Gates.results rep)
                   /\ Gates.status r = Gates.overall_status rep).
Proof.
  intros any; subst any; cbv beta.
  assert (HH := has_status_spec Gates.HALT (Gates.results rep)).
  assert (HW := has_status_spec Gates.WARN (Gates.results rep)).
  unfold Gates.overall_status.
  destruct (existsb (fun r => Gates.GateStatus_eqb (Gates.status r) Gates.HALT)
              (Gates.results rep));
  destruct (existsb (fun r => Gates.GateStatus_eqb (Gates.status r) Gates.WARN)
              (Gates.results rep)).
  all: repeat split.
  all: try reflexivity.
  all: try (intros; exfalso; intuition discriminate).
  all: try (intros r Hin; destruct (Gates.status r) eqn:Hr; simpl; try lia;
            exfalso;
            first [ assert (false = true) by (apply HH; eauto); discriminate
                  | assert (false = true) by (apply HW; eauto); discriminate ]).
  all: try (right; first [apply HH | apply HW]; reflexivity).
  all: try (left; reflexivity).
Qed.

Lemma overall_status_is_worst_witness :
  Gates.overall_status
    (Gates.mkValidationReport
       [ Gates.mkGateResult Gates.PASS "duration_bounds" None None;
         Gates.mkGateResult Gates.WARN "fia_option_budget" (Some 2) (Some 1.5);
         Gates.mkGateResult Gates.HALT "arbitrage_bounds" (Some 200) (Some 100) ])
  = Gates.HALT.
Proof.
  apply (proj1 (overall_status_is_worst _)).
  eexists; split; [right; right; left; reflexivity | reflexivity].
Defined.

(* ------------------------------------------------------------------ *)
(** ** FIA option budget gate *)

Lemma validate_results (engine : Gates.ValidationEngine)
    (result : Gates.AnyResult) (context : Gates.GateContext) (r : Gates.GateResult) :
  In r (Gates.results (Gates.validate engine result context))
  <-> exists g, In g (Gates.gates engine) /\ Gates.check g result context = r.
Proof.
  unfold Gates.validate; simpl; rewrite in_map_iff.
  split; intros [g [H1 H2]]; exists g; tauto.
Qed.

Lemma FIAOptionBudgetGate_never_halts (tolerance : R)
    (result : Gates.AnyResult) (context : Gates.GateContext) :
  Gates.status (Gates.FIAOptionBudgetGate_check tolerance result context)
  <> Gates.HALT.
Proof.
  unfold Gates.FIAOptionBudgetGate_check.
  destruct result as [p | f | r]; simpl; try discriminate.
  destruct (Rleb _ _); simpl; try discriminate.
  destruct (Rgtb _ _); simpl; discriminate.
Qed.

(** C2, as stated, fails: with option value 2 against a budget of 1 the
    budget gate answers WARN, not HALT, and the report of the default gate
    set is WARN overall. *)
Lemma fia_option_budget_gate_does_not_halt :
  FIA.option_budget over_budget_fia > 0
  /\ FIA.embedded_option_value over_budget_fia
     > 1.5 * FIA.option_budget over_budget_fia
  /\ Gates.status
       (Gates.check (Gates.FIAOptionBudgetGate 0.50)
          (Gates.FIAResult over_budget_fia) (Gates.mkGateContext None None None))
     <> Gates.HALT
  /\ Gates.overall_status
       (Gates.validate_pricing_result (Gates.FIAResult over_budget_fia)
          (Gates.mkGateContext None None None))
     = Gates.WARN.
Proof.
  split; [simpl; lra |].
  split; [simpl; lra |].
  split; [apply FIAOptionBudgetGate_never_halts |].
  unfold Gates.validate_pricing_result, Gates.validate, Gates.overall_status.
  unfold over_budget_fia; simpl.
  unfold Gates.PresentValueBoundsGate_check, Gates.DurationBoundsGate_check,
    Gates.FIAOptionBudgetGate_check, Gates.FIAExpectedCreditGate_check,
    Gates.ArbitrageBoundsGate_check, Gates.get_premium; simpl.
  Rcompare; simpl; reflexivity.
Qed.

(** C2, amended.  When the embedded option value of an FIA result exceeds
    1.5 times a positive option budget, the budget gate (tolerance 0.50)
    returns WARN.  A validation run that contains the gate is therefore
    never PASS overall; it is HALT exactly when some gate of the run
    halts, which the budget gate never does, and WARN otherwise. *)
Theorem fia_option_budget_gate_warns (f : FIA.FIAPricingResult)
    (context : Gates.GateContext) (engine : Gates.ValidationEngine) :
  FIA.option_budget f > 0 ->
  FIA.embedded_option_value f > 1.5 * FIA.option_budget f ->
  In (Gates.FIAOptionBudgetGate 0.50) (Gates.gates engine) ->
  let report := Gates.validate engine (Gates.FIAResult f) context in
  let halts g :=
    Gates.status (Gates.check g (Gates.FIAResult f) context) = Gates.HALT in
  Gates.status
    (Gates.check (Gates.FIAOptionBudgetGate 0.50) (Gates.FIAResult f) context)
  = Gates.WARN
  /\ Gates.overall_status report <> Gates.PASS
  /\ (Gates.overall_status report = Gates.HALT
      <-> exists g, In g (Gates.gates engine)
                    /\ g <> Gates.FIAOptionBudgetGate 0.50 /\ halts g)
  /\ ((forall g, In g (Gates.gates engine) -> ~ halts g) ->
      Gates.overall_status report = Gates.WARN).
Proof.
  intros Hbudget Hvalue Hin report halts.
  assert (Hwarn : Gates.status
            (Gates.check (Gates.FIAOptionBudgetGate 0.50) (Gates.FIAResult f)
               context) = Gates.WARN).
  { simpl; unfold Gates.FIAOptionBudgetGate_check.
    assert (Hratio : FIA.embedded_option_value f / FIA.option_budget f
                     > 1 + 0.50).
    { apply Rlt_gt. apply Rmult_lt_reg_r with (r := FIA.option_budget f);
        [lra |].
      unfold Rdiv; rewrite Rmult_assoc, Rinv_l by lra. lra. }
    apply Rgtb_true in Hratio; rewrite Hratio.
    destruct (Rleb _ _); reflexivity. }
  assert (Hin_report : In (Gates.check (Gates.FIAOptionBudgetGate 0.50)
                             (Gates.FIAResult f) context)
                          (Gates.results report)).
  { apply validate_results; eauto. }
  split; [exact Hwarn |].
  split; [| split].
  - intros Hpass. rewrite overall_status_PASS_iff in Hpass.
    specialize (Hpass _ Hin_report); congruence.
  - rewrite overall_status_HALT_iff. split.
    + intros [r [Hr Hs]]. apply validate_results in Hr.
      destruct Hr as [g [Hg Heq]]. exists g; repeat split; try assumption.
      * intros ->. congruence.
      * unfold halts; congruence.
    + intros [g [Hg [_ Hh]]]. eexists; split; [| exact Hh].
      apply validate_results; eauto.
  - intros Hno.
    apply overall_status_WARN_iff. split.
    + intros r Hr Hs. apply validate_results in Hr.
      destruct Hr as [g [Hg Heq]]. apply (Hno g Hg). unfold halts; congruence.
    + eexists; split; [exact Hin_report | exact Hwarn].
Qed.

Lemma fia_option_budget_gate_warns_witness :
  FIA.option_budget over_budget_fia > 0
  /\ FIA.embedded_option_value over_budget_fia
     > 1.5 * FIA.option_budget over_budget_fia
  /\ Gates.status
       (Gates.check (Gates.FIAOptionBudgetGate 0.50)
          (Gates.FIAResult over_budget_fia) (Gates.mkGateContext None None None))
     = Gates.WARN.
Proof.
  assert (H1 : FIA.option_budget over_budget_fia > 0) by (simpl; lra).
  assert (H2 : FIA.embedded_option_value over_budget_fia
               > 1.5 * FIA.option_budget over_budget_fia) by (simpl; lra).
  split; [exact H1 |]. split; [exact H2 |].
  apply (fia_option_budget_gate_warns over_budget_fia
           (Gates.mkGateContext None None None) (Gates.new_ValidationEngine None)
           H1 H2).
  simpl; tauto.
Defined.

(* ------------------------------------------------------------------ *)
(** ** FIA crediting method *)

Section CreditingMethod.
Import Schemas FIA.

Variable _price_embedded_option :
  FIAPricer -> string -> params -> R -> R -> outcome R.
Variable _calculate_expected_credit :
  FIAPricer -> string -> params -> R -> outcome R.
Variable _solve_fair_cap : FIAPricer -> R -> R -> R -> outcome (option R).
Variable _solve_fair_participation :
  FIAPricer -> R -> R -> R -> outcome (option R).

Let price_fia :=
  price _price_embedded_option _calculate_expected_credit _solve_fair_cap
    _solve_fair_participation.

(** C4.  The crediting method is the first field set among cap,
    participation, spread and trigger, in that order; a product with none
    of the four set makes [_determine_crediting_method] raise, and pricing
    it raises as well, whatever the pricing helpers would compute. *)
Theorem crediting_method_priority_or_error (product : FIAProduct) :
  (forall cap, cap_rate product = Some cap ->
     _determine_crediting_method product
     = Ok ("cap"%string, [("cap_rate"%string, cap)]))
  /\ (forall par, cap_rate product = None ->
        participation_rate product = Some par ->
        _determine_crediting_method product
        = Ok ("participation"%string, [("participation_rate"%string, par)]))
  /\ (forall spread, cap_rate product = None ->
        participation_rate product = None ->
        spread_rate product = Some spread ->
        _determine_crediting_method product
        = Ok ("spread"%string, [("spread_rate"%string, spread)]))
  /\ (forall trig, cap_rate product = None ->
        participation_rate product = None ->
        spread_rate product = None ->
        performance_triggered_rate product = Some trig ->
        _determine_crediting_method product
        = Ok ("trigger"%string, [("trigger_rate"%string, trig)]))
  /\ (no_crediting_method product ->
        exists msg,
          _determine_crediting_method product = Raise msg
          /\ forall self term_years premium,
               price_fia self (IsFIA product) term_years premium = Raise msg).
Proof.
  unfold no_crediting_method, price_fia, price, _determine_crediting_method.
  repeat split; intros.
  - rewrite H; reflexivity.
  - rewrite H, H0; reflexivity.
  - rewrite H, H0, H1; reflexivity.
  - rewrite H, H0, H1, H2; reflexivity.
  - destruct H as (-> & -> & -> & ->).
    eexists; split; [reflexivity | intros; reflexivity].
Qed.

End CreditingMethod.

Lemma crediting_method_priority_or_error_witness :
  no_crediting_method no_method_product
  /\ exists msg,
       FIA.price (fun _ _ _ _ _ => Ok 0) (fun _ _ _ _ => Ok 0)
         (fun _ _ _ _ => Ok None) (fun _ _ _ _ => Ok None)
         (FIA.mkFIAPricer (FIA.mkMarketParams 100 0.05 0.02 0.20) 0.03 100000
            None)
         (Schemas.IsFIA no_method_product) 1 100
       = Raise msg.
Proof.
  assert (H : no_crediting_method no_method_product)
    by (repeat split; reflexivity).
  split; [exact H |].
  destruct (proj2 (proj2 (proj2 (proj2
              (crediting_method_priority_or_error
                 (fun _ _ _ _ _ => Ok 0) (fun _ _ _ _ => Ok 0)
                 (fun _ _ _ _ => Ok None) (fun _ _ _ _ => Ok None)
                 no_method_product)))) H) as [msg [_ Hprice]].
  exists msg. apply Hprice.
Defined.

(* ------------------------------------------------------------------ *)
(** ** Dynamic lapse *)

Section LapseFacts.
Import DynamicLapse.

Lemma float_max_ge_2 : 2 <= float_max.
Proof.
  unfold float_max. apply IZR_le. apply Z.leb_le. vm_compute. reflexivity.
Qed.

Lemma float_min_le_half : float_min <= / 2.
Proof.
  unfold float_min. apply Rinv_le_contravar; [lra |].
  apply IZR_le. apply Z.leb_le. vm_compute. reflexivity.
Qed.

Lemma Rpower_one (y : R) : Rpower 1 y = 1.
Proof. unfold Rpower. now rewrite ln_1, Rmult_0_r, exp_0. Qed.

Lemma moneyness_of_pos (gwb av : R) :
  0 <= gwb -> 0 < av -> 0 < moneyness_of gwb av.
Proof.
  intros Hgwb Hav. unfold moneyness_of.
  destruct (Rgtb gwb 0) eqn:H; [| lra].
  apply Rgtb_true in H. unfold Rdiv. apply Rmult_lt_0_compat; [lra |].
  apply Rinv_0_lt_compat; lra.
Qed.

Lemma moneyness_of_ratio (gwb av : R) :
  0 < gwb -> moneyness_of gwb av = av / gwb.
Proof.
  intros H. unfold moneyness_of. apply Rgtb_true in H. now rewrite H.
Qed.

Lemma moneyness_of_no_guarantee (av : R) : moneyness_of 0 av = 1.
Proof.
  unfold moneyness_of.
  assert (H : Rgtb 0 0 = false) by (apply Rgtb_false; lra). now rewrite H.
Qed.

(** Past its guards the method is one power, one product and one clip. *)
Lemma calculate_lapse_with_eq (power : R -> R -> outcome R)
    (a : LapseAssumptions) (gwb av : R) (spc : bool) :
  0 <= gwb -> 0 < av ->
  calculate_lapse_with power a gwb av spc
  = (factor <- power (moneyness_of gwb av) (sensitivity a) ;;
     Ok (mkLapseResult
           (np_clip
              ((if negb spc then base_annual_lapse a * 0.2
                else base_annual_lapse a) * factor)
              (min_lapse a) (max_lapse a))
           (moneyness_of gwb av) factor)).
Proof.
  intros Hgwb Hav; unfold calculate_lapse_with.
  assert (H1 : Rleb av 0 = false) by (apply Rleb_false; lra).
  assert (H2 : Rltb gwb 0 = false) by (apply Rltb_false; lra).
  rewrite H1, H2; reflexivity.
Qed.

Lemma calculate_lapse_ok (a : LapseAssumptions) (gwb av : R) (spc : bool) :
  0 <= gwb -> 0 < av ->
  Rpower (moneyness_of gwb av) (sensitivity a) <= float_max ->
  calculate_lapse a gwb av spc
  = Ok (mkLapseResult
          (np_clip
             ((if negb spc then base_annual_lapse a * 0.2
               else base_annual_lapse a)
              * Rpower (moneyness_of gwb av) (sensitivity a))
             (min_lapse a) (max_lapse a))
          (moneyness_of gwb av)
          (Rpower (moneyness_of gwb av) (sensitivity a))).
Proof.
  intros Hgwb Hav Hrange. unfold calculate_lapse.
  rewrite calculate_lapse_with_eq by assumption. unfold py_pow.
  apply Rgtb_false in Hrange. now rewrite Hrange.
Qed.

Lemma calculate_lapse_overflow (a : LapseAssumptions) (gwb av : R)
    (spc : bool) :
  0 <= gwb -> 0 < av ->
  Rpower (moneyness_of gwb av) (sensitivity a) > float_max ->
  calculate_lapse a gwb av spc
  = Raise "OverflowError: Numerical result out of range".
Proof.
  intros Hgwb Hav Hover. unfold calculate_lapse.
  rewrite calculate_lapse_with_eq by assumption. unfold py_pow.
  apply Rgtb_true in Hover. now rewrite Hover.
Qed.

Lemma calculate_lapse_inv (a : LapseAssumptions) (gwb av : R) (spc : bool)
    (res : LapseResult) :
  calculate_lapse a gwb av spc = Ok res ->
  0 <= gwb /\ 0 < av
  /\ Rpower (moneyness_of gwb av) (sensitivity a) <= float_max.
Proof.
  unfold calculate_lapse, calculate_lapse_with.
  destruct (Rleb av 0) eqn:H1; [discriminate |]. apply Rleb_false in H1.
  destruct (Rltb gwb 0) eqn:H2; [discriminate |]. apply Rltb_false in H2.
  fold (moneyness_of gwb av). unfold py_pow.
  destruct (Rgtb _ float_max) eqn:H3; [discriminate |].
  apply Rgtb_false in H3. intros _. auto.
Qed.

Lemma np_clip_bounds (x lo hi : R) :
  lo <= hi -> lo <= np_clip x lo hi <= hi.
Proof.
  intros Hle; unfold np_clip, Rmin, Rmax.
  destruct (Rle_dec x lo); destruct (Rle_dec _ hi); lra.
Qed.

Lemma np_clip_inside (x lo hi : R) : lo <= x <= hi -> np_clip x lo hi = x.
Proof.
  intros [Hlo Hhi]; unfold np_clip.
  rewrite Rmax_left by assumption. now rewrite Rmin_left.
Qed.

End LapseFacts.




(** C6, as stated, fails: nothing keeps the base annual lapse of an
    assumption set non-negative, and with a negative base the rate at the
    larger account value is the smaller one (sensitivity 1, GWB 1, account
    values 1 and 2, surrender period complete: -0.05 against -0.10). *)
Lemma lapse_decreases_with_negative_base :
  DynamicLapse.sensitivity negative_base_assumptions >= 0
  /\ exists r1 r2,
       DynamicLapse.calculate_lapse negative_base_assumptions 1 1 true = Ok r1
       /\ DynamicLapse.calculate_lapse negative_base_assumptions 1 2 true = Ok r2
       /\ ~ DynamicLapse.lapse_rate r1 <= DynamicLapse.lapse_rate r2.
Proof.
  pose proof float_max_ge_2 as Hmax.
  assert (Hm1 : moneyness_of 1 1 = 1)
    by (rewrite moneyness_of_ratio by lra; lra).
  assert (Hm2 : moneyness_of 1 2 = 2)
    by (rewrite moneyness_of_ratio by lra; lra).
  split; [simpl; lra |].
  do 2 eexists.
  split; [apply calculate_lapse_ok; try lra;
          simpl; rewrite Hm1, Rpower_1 by lra; lra |].
  split; [apply calculate_lapse_ok; try lra;
          simpl; rewrite Hm2, Rpower_1 by lra; lra |].
  simpl. rewrite Hm1, Hm2.
  rewrite !Rpower_1 by lra.
  rewrite !np_clip_inside by lra. lra.
Qed.

(** C6, amended.  With sensitivity >= 0 and base annual lapse >= 0, the
    same surrender-period flag and the same GWB > 0, and account values
    0 < av1 <= av2 with av2/GWB within the binary64 range: whenever both
    calls return, the lapse rate at av1 is at most the lapse rate at av2;
    and both calls do return when (av2/GWB)^sensitivity does not exceed
    the binary64 range. *)
Theorem lapse_monotone_in_moneyness (a : DynamicLapse.LapseAssumptions)
    (gwb av1 av2 : R) (surrender_period_complete : bool) :
  DynamicLapse.sensitivity a >= 0 ->
  DynamicLapse.base_annual_lapse a >= 0 ->
  0 < gwb -> 0 < av1 -> av1 <= av2 ->
  av2 / gwb <= float_max ->
  (forall r1 r2,
     DynamicLapse.calculate_lapse a gwb av1 surrender_period_complete = Ok r1 ->
     DynamicLapse.calculate_lapse a gwb av2 surrender_period_complete = Ok r2 ->
     DynamicLapse.moneyness r1 <= DynamicLapse.moneyness r2
     /\ DynamicLapse.lapse_rate r1 <= DynamicLapse.lapse_rate r2)
  /\ (Rpower (av2 / gwb) (DynamicLapse.sensitivity a) <= float_max ->
      exists r1 r2,
        DynamicLapse.calculate_lapse a gwb av1 surrender_period_complete
        = Ok r1
        /\ DynamicLapse.calculate_lapse a gwb av2 surrender_period_complete
           = Ok r2
        /\ DynamicLapse.moneyness r1 <= DynamicLapse.moneyness r2
        /\ DynamicLapse.lapse_rate r1 <= DynamicLapse.lapse_rate r2).
Proof.
  intros Hs Hb Hgwb Hav1 Hle _.
  assert (Hinv : 0 < / gwb) by (apply Rinv_0_lt_compat; lra).
  assert (Hm1 : 0 < av1 / gwb) by (unfold Rdiv; apply Rmult_lt_0_compat; lra).
  assert (Hm : av1 / gwb <= av2 / gwb)
    by (unfold Rdiv; apply Rmult_le_compat_r; lra).
  assert (Hpow : Rpower (av1 / gwb) (DynamicLapse.sensitivity a)
                 <= Rpower (av2 / gwb) (DynamicLapse.sensitivity a))
    by (apply Rle_Rpower_l; [lra | split; assumption]).
  assert (Hrates :
    np_clip
      ((if negb surrender_period_complete
        then DynamicLapse.base_annual_lapse a * 0.2
        else DynamicLapse.base_annual_lapse a)
       * Rpower (av1 / gwb) (DynamicLapse.sensitivity a))
      (DynamicLapse.min_lapse a) (DynamicLapse.max_lapse a)
    <= np_clip
         ((if negb surrender_period_complete
           then DynamicLapse.base_annual_lapse a * 0.2
           else DynamicLapse.base_annual_lapse a)
          * Rpower (av2 / gwb) (DynamicLapse.sensitivity a))
         (DynamicLapse.min_lapse a) (DynamicLapse.max_lapse a)).
  { apply np_clip_mono. apply Rmult_le_compat_l; [| exact Hpow].
    destruct surrender_period_complete; simpl; lra. }
  assert (Hmon1 : moneyness_of gwb av1 = av1 / gwb)
    by (apply moneyness_of_ratio; lra).
  assert (Hmon2 : moneyness_of gwb av2 = av2 / gwb)
    by (apply moneyness_of_ratio; lra).
  split.
  - intros r1 r2 H1 H2.
    destruct (calculate_lapse_inv _ _ _ _ _ H1) as (_ & _ & Hr1).
    destruct (calculate_lapse_inv _ _ _ _ _ H2) as (_ & _ & Hr2).
    rewrite calculate_lapse_ok in H1 by (try lra; exact Hr1).
    rewrite calculate_lapse_ok in H2 by (try lra; exact Hr2).
    injection H1 as <-. injection H2 as <-. simpl.
    rewrite Hmon1, Hmon2. split; assumption.
  - intros Hrange.
    do 2 eexists.
    split; [apply calculate_lapse_ok; try lra; rewrite Hmon1; lra |].
    split; [apply calculate_lapse_ok; try lra; rewrite Hmon2; lra |].
    simpl. rewrite Hmon1, Hmon2. split; assumption.
Qed.

Lemma lapse_monotone_in_moneyness_witness :
  exists r1 r2,
    DynamicLapse.calculate_lapse DynamicLapse.default_assumptions
      100000 90000 true = Ok r1
    /\ DynamicLapse.calculate_lapse DynamicLapse.default_assumptions
         100000 120000 true = Ok r2
    /\ DynamicLapse.lapse_rate r1 <= DynamicLapse.lapse_rate r2.
Proof.
  pose proof float_max_ge_2 as Hmax.
  destruct (lapse_monotone_in_moneyness DynamicLapse.default_assumptions
              100000 90000 120000 true) as [_ Hret]; try (simpl; lra).
  destruct Hret as [r1 [r2 [H1 [H2 [_ H3]]]]].
  { simpl. rewrite Rpower_1 by lra. lra. }
  exists r1, r2; auto.
Defined.

(* ------------------------------------------------------------------ *)
(** ** Withdrawal utilization *)

Lemma IZR_max_0 (n : Z) : IZR (Z.max 0 n) = Rmax 0 (IZR n).
Proof.
  destruct (Z.max_spec 0 n) as [[Hlt ->] | [Hle ->]].
  - rewrite Rmax_right; [reflexivity |]. apply IZR_le; lia.
  - rewrite Rmax_left; [reflexivity |]. apply IZR_le; lia.
Qed.

Lemma utilization_ramp (a : Withdrawal.WithdrawalAssumptions) (age years : Z) :
  (0 <= years)%Z ->
  Withdrawal._calculate_utilization a age years
  = np_clip
      (spec_ramp years
       * (Withdrawal.base_utilization a
          + Withdrawal.age_sensitivity a * Rmax 0 (IZR age - 65)))
      (Withdrawal.min_utilization a) (Withdrawal.max_utilization a).
Proof.
  intros Hy; unfold Withdrawal._calculate_utilization.
  rewrite IZR_max_0, minus_IZR.
  f_equal.
  destruct (years <? 3)%Z eqn:Hlt.
  - apply Z.ltb_lt in Hlt.
    assert (Hc : years = 0%Z \/ years = 1%Z \/ years = 2%Z) by lia.
    destruct Hc as [-> | [-> | ->]]; simpl; lra.
  - apply Z.ltb_ge in Hlt.
    replace (spec_ramp years) with 1; [lra |].
    destruct years as [| p | p]; try lia.
    destruct p as [[p | p |] | [p | p |] |]; try reflexivity; lia.
Qed.



(* ------------------------------------------------------------------ *)
(** ** Survival probability *)

Section SurvivalFacts.
Import DynamicLapse.

Variable dt : R.

Lemma survival_loop_length (ls : list R) (s : R) :
  List.length (survival_loop s ls dt) = List.length ls.
Proof.
  revert s; induction ls as [| l rest IH]; intros s; simpl;
    [reflexivity | now rewrite IH].
Qed.

(** Each entry is the previous one times the clamped stay probability. *)
Lemma survival_loop_step (ls : list R) (s : R) (t : nat) :
  (t < List.length ls)%nat ->
  nth (S t) (s :: survival_loop s ls dt) 0
  = nth t (s :: survival_loop s ls dt) 0 * Rmax (1 - nth t ls 0 * dt) 0.
Proof.
  revert s t; induction ls as [| l rest IH]; intros s t Ht; simpl in Ht;
    [lia |].
  destruct t as [| t'].
  - reflexivity.
  - change (nth (S (S t')) (s :: survival_loop s (l :: rest) dt) 0)
      with (nth (S t') (s * Rmax (1 - l * dt) 0
                        :: survival_loop (s * Rmax (1 - l * dt) 0) rest dt) 0).
    rewrite IH by lia. reflexivity.
Qed.

Lemma stay_probability_bounds (l : R) :
  0 <= l -> 0 <= dt -> 0 <= Rmax (1 - l * dt) 0 <= 1.
Proof.
  intros Hl Hdt.
  assert (0 <= l * dt) by (apply Rmult_le_pos; assumption).
  unfold Rmax; destruct (Rle_dec (1 - l * dt) 0); lra.
Qed.

Lemma survival_loop_bounds (ls : list R) (s : R) :
  Forall (fun l => 0 <= l) ls -> 0 <= dt -> 0 <= s <= 1 ->
  Forall (fun p => 0 <= p <= 1) (survival_loop s ls dt).
Proof.
  intros Hls Hdt; revert s; induction Hls as [| l rest Hl Hrest IH];
    intros s Hs; simpl; constructor.
  - pose proof (stay_probability_bounds l Hl Hdt). nra.
  - apply IH. pose proof (stay_probability_bounds l Hl Hdt). nra.
Qed.

End SurvivalFacts.

(** C10.  For non-negative lapse rates and dt >= 0 the survival array has
    one entry more than the lapse rates, starts at 1, has all entries in
    [0, 1] and is non-increasing; each entry is the previous one times
    max(1 - lapse_t * dt, 0), so a step with lapse_t * dt > 1 sends
    survival to 0 and never below. *)
Theorem survival_probability_invariants (lapse_rates : list R) (dt : R) :
  Forall (fun l => 0 <= l) lapse_rates -> 0 <= dt ->
  let survival :=
    DynamicLapse.calculate_survival_probability lapse_rates dt in
  List.length survival = S (List.length lapse_rates)
  /\ nth 0 survival 0 = 1
  /\ Forall (fun p => 0 <= p <= 1) survival
  /\ (forall t, (t < List.length lapse_rates)%nat ->
        nth (S t) survival 0
        = nth t survival 0 * Rmax (1 - nth t lapse_rates 0 * dt) 0)
  /\ (forall t, (t < List.length lapse_rates)%nat ->
        nth (S t) survival 0 <= nth t survival 0)
  /\ (forall t, (t < List.length lapse_rates)%nat ->
        nth t lapse_rates 0 * dt > 1 -> nth (S t) survival 0 = 0).
Proof.
  intros Hls Hdt survival; subst survival.
  unfold DynamicLapse.calculate_survival_probability.
  assert (Hbounds : Forall (fun p => 0 <= p <= 1)
                      (1 :: DynamicLapse.survival_loop 1 lapse_rates dt)).
  { constructor; [lra |]. apply survival_loop_bounds; [assumption .. | lra]. }
  split; [simpl; now rewrite survival_loop_length |].
  split; [reflexivity |].
  split; [exact Hbounds |].
  split; [intros t Ht; now apply survival_loop_step |].
  split.
  - intros t Ht. rewrite survival_loop_step by assumption.
    assert (Hl : 0 <= nth t lapse_rates 0).
    { rewrite Forall_forall in Hls. apply Hls, nth_In, Ht. }
    pose proof (stay_probability_bounds dt _ Hl Hdt) as Hstay.
    assert (Hp : 0 <= nth t (1 :: DynamicLapse.survival_loop 1 lapse_rates dt) 0
                 <= 1).
    { rewrite Forall_forall in Hbounds. apply Hbounds, nth_In.
      simpl; rewrite survival_loop_length; lia. }
    nra.
  - intros t Ht Hbig. rewrite survival_loop_step by assumption.
    rewrite Rmax_right by lra. lra.
Qed.

Lemma survival_probability_invariants_witness :
  DynamicLapse.calculate_survival_probability [0.05; 2; 0.1] 1
  = [1; 0.95; 0; 0]
  /\ nth 2 (DynamicLapse.calculate_survival_probability [0.05; 2; 0.1] 1) 0 = 0.
Proof.
  split.
  - unfold DynamicLapse.calculate_survival_probability; simpl.
    rewrite (Rmax_left (1 - 0.05 * 1) 0) by lra.
    rewrite (Rmax_right (1 - 2 * 1) 0) by lra.
    repeat f_equal; lra.
  - assert (Hls : Forall (fun l => 0 <= l) [0.05; 2; 0.1])
      by (repeat constructor; lra).
    assert (Hdt : 0 <= 1) by lra.
    destruct (survival_probability_invariants [0.05; 2; 0.1] 1 Hls Hdt)
      as (_ & _ & _ & _ & _ & Hclamp).
    apply (Hclamp 1%nat); simpl; [lia | lra].
Defined.

(* ------------------------------------------------------------------ *)
(** ** RILA maximum loss *)

Section MaxLoss.
Import Schemas RILA.

Variable is_buffer : RILAProduct -> bool.
Variable _price_protection : RILAPricer -> bool -> R -> R -> R -> outcome R.
Variable _price_upside : RILAPricer -> option R -> R -> R -> outcome R.
Variable _calculate_expected_return :
  RILAPricer -> bool -> R -> option R -> R -> outcome R.
Variable _calculate_breakeven :
  RILAPricer -> bool -> R -> option R -> option R.

Let price_rila :=
  price is_buffer _price_protection _price_upside _calculate_expected_return
    _calculate_breakeven.

Lemma bind_Ok_inv {A B : Type} (m : outcome A) (k : A -> outcome B) (b : B) :
  bind m k = Ok b -> exists a, m = Ok a /\ k a = Ok b.
Proof. destruct m as [a | msg]; simpl; [eauto | discriminate]. Qed.

(** C9.  Whenever the pricer accepts a RILA product, the product carries a
    rate and the result's max_loss is 1 - rate for a buffer product and
    the rate itself for a floor product; the max-loss gate, told that
    rate, finds no mismatch to warn about. *)
Theorem rila_max_loss_by_protection (self : RILAPricer)
    (product : RILAProduct) (term_years : option R) (premium : R)
    (res : RILAPricingResult) :
  price_rila self (IsRILA product) term_years premium = Ok res ->
  exists rate,
    buffer_rate product = Some rate
    /\ (is_buffer product = true ->
        max_loss res = 1 - rate /\ protection_type res = "buffer"%string)
    /\ (is_buffer product = false ->
        max_loss res = rate /\ protection_type res = "floor"%string)
    /\ forall context,
         Gates.ctx_buffer_rate context = Some rate ->
         Gates.status (Gates.RILAMaxLossGate_check (Gates.RILAResult res) context)
         <> Gates.WARN.
Proof.
  unfold price_rila, price; intros Hprice.
  apply bind_Ok_inv in Hprice; destruct Hprice as [t [_ Hprice]].
  apply bind_Ok_inv in Hprice; destruct Hprice as [rate [Hrate Hprice]].
  apply bind_Ok_inv in Hprice; destruct Hprice as [pv [_ Hprice]].
  apply bind_Ok_inv in Hprice; destruct Hprice as [uv [_ Hprice]].
  apply bind_Ok_inv in Hprice; destruct Hprice as [er [_ Hprice]].
  injection Hprice as <-.
  exists rate. split.
  { destruct (is_buffer product); destruct (buffer_rate product);
      simpl in Hrate; congruence. }
  split; [intros ->; split; reflexivity |].
  split; [intros ->; split; reflexivity |].
  intros context Hctx.
  unfold Gates.RILAMaxLossGate_check; simpl; rewrite Hctx.
  destruct (Rltb _ 0); [discriminate |].
  destruct (Rgtb _ 1); [discriminate |].
  assert (Hsame : forall x, Rgtb (Rabs (x - x)) 0.01 = false).
  { intros x. apply Rgtb_false.
    replace (x - x) with 0 by lra. rewrite Rabs_R0; lra. }
  destruct (is_buffer product); simpl; rewrite Hsame; discriminate.
Qed.

End MaxLoss.

Lemma rila_max_loss_by_protection_witness :
  (exists res,
     RILA.price sample_is_buffer (fun _ _ _ _ _ => Ok 3) (fun _ _ _ _ => Ok 5)
       (fun _ _ _ _ _ => Ok 0.04) (fun _ _ _ _ => Some (-0.10))
       sample_rila_pricer (Schemas.IsRILA buffer_product) (Some 1) 100 = Ok res
     /\ RILA.max_loss res = 1 - 0.10)
  /\ (exists res,
        RILA.price sample_is_buffer (fun _ _ _ _ _ => Ok 3)
          (fun _ _ _ _ => Ok 5) (fun _ _ _ _ _ => Ok 0.04)
          (fun _ _ _ _ => Some (-0.10))
          sample_rila_pricer (Schemas.IsRILA floor_product) (Some 1) 100
        = Ok res
        /\ RILA.max_loss res = 0.10).
Proof.
  assert (H : Rleb 1 0 = false) by (apply Rleb_false; lra).
  split.
  - destruct (RILA.price sample_is_buffer (fun _ _ _ _ _ => Ok 3)
                (fun _ _ _ _ => Ok 5) (fun _ _ _ _ _ => Ok 0.04)
                (fun _ _ _ _ => Some (-0.10)) sample_rila_pricer
                (Schemas.IsRILA buffer_product) (Some 1) 100)
      as [res | msg] eqn:Hprice.
    + exists res; split; [reflexivity |].
      destruct (rila_max_loss_by_protection _ _ _ _ _ _ _ _ _ _ Hprice)
        as [rate [Hrate [Hbuf _]]].
      simpl in Hrate; injection Hrate as <-.
      apply Hbuf; reflexivity.
    + exfalso.
      unfold RILA.price, RILA.resolve_term_years in Hprice.
      rewrite H in Hprice. discriminate Hprice.
  - destruct (RILA.price sample_is_buffer (fun _ _ _ _ _ => Ok 3)
                (fun _ _ _ _ => Ok 5) (fun _ _ _ _ _ => Ok 0.04)
                (fun _ _ _ _ => Some (-0.10)) sample_rila_pricer
                (Schemas.IsRILA floor_product) (Some 1) 100)
      as [res | msg] eqn:Hprice.
    + exists res; split; [reflexivity |].
      destruct (rila_max_loss_by_protection _ _ _ _ _ _ _ _ _ _ Hprice)
        as [rate [Hrate [_ [Hfloor _]]]].
      simpl in Hrate; injection Hrate as <-.
      apply Hfloor; reflexivity.
    + exfalso.
      unfold RILA.price, RILA.resolve_term_years in Hprice.
      rewrite H in Hprice. discriminate Hprice.
Defined.

(* ------------------------------------------------------------------ *)
(** ** Scenario generator *)

Section ScenarioFacts.
Import Scenarios.

Lemma nth_map_seq {A : Type} (f : nat -> A) (d : A) (len start t : nat) :
  (t < len)%nat -> nth t (map f (seq start len)) d = f (start + t)%nat.
Proof.
  revert start t; induction len as [| len IH]; intros start t Ht; [lia |].
  destruct t as [| t]; simpl.
  - f_equal; lia.
  - rewrite IH by lia. f_equal; lia.
Qed.

Lemma standard_normal_nth (draw : nat -> nat -> R) (n T i t : nat) :
  (i < n)%nat -> (t < T)%nat ->
  nth t (nth i (standard_normal draw n T) []) 0 = draw i t.
Proof.
  intros Hi Ht; unfold standard_normal.
  rewrite nth_map_seq by assumption. now rewrite nth_map_seq by assumption.
Qed.

Lemma standard_normal_row (draw : nat -> nat -> R) (n T i : nat) :
  (i < n)%nat ->
  nth i (standard_normal draw n T) [] = map (draw i) (seq 0 T).
Proof.
  intros Hi; unfold standard_normal. now rewrite nth_map_seq by assumption.
Qed.

Lemma standard_normal_length (draw : nat -> nat -> R) (n T : nat) :
  List.length (standard_normal draw n T) = n.
Proof. unfold standard_normal. now rewrite length_map, length_seq. Qed.

Lemma scale_standard_normal (c : R) (draw : nat -> nat -> R) (n T : nat) :
  scale c (standard_normal draw n T)
  = standard_normal (fun i t => c * draw i t) n T.
Proof.
  unfold scale, standard_normal. rewrite map_map.
  apply map_ext; intros i. now rewrite map_map.
Qed.

Lemma add_rows_map_seq (f g : nat -> R) (len start : nat) :
  add_rows (map f (seq start len)) (map g (seq start len))
  = map (fun t => f t + g t) (seq start len).
Proof.
  revert start; induction len as [| len IH]; intros start; simpl;
    [reflexivity | now rewrite IH].
Qed.

Lemma add_standard_normal (d1 d2 : nat -> nat -> R) (n T : nat) :
  add (standard_normal d1 n T) (standard_normal d2 n T)
  = standard_normal (fun i t => d1 i t + d2 i t) n T.
Proof.
  unfold standard_normal. generalize 0%nat at 2 4 6 as start.
  induction n as [| n IH]; intros start; simpl; [reflexivity |].
  now rewrite add_rows_map_seq, IH.
Qed.

(** The equity shocks, entry by entry. *)
Lemma correlated_shocks_eq (self : ScenarioGenerator) (correlation : R)
    (draw1 draw2 : nat -> nat -> R) :
  _generate_correlated_shocks self correlation draw1 draw2
  = (standard_normal draw1 (n_scenarios self) (projection_years self),
     standard_normal
       (fun i t =>
          correlation * draw1 i t + sqrt (1 - correlation ^ 2) * draw2 i t)
       (n_scenarios self) (projection_years self)).
Proof.
  unfold _generate_correlated_shocks.
  now rewrite !scale_standard_normal, add_standard_normal.
Qed.

Lemma vasicek_row_length (params : VasicekParams) (zs : list R) (r_prev : R) :
  List.length (vasicek_row params r_prev zs) = List.length zs.
Proof.
  revert r_prev; induction zs as [| z rest IH]; intros r_prev; simpl;
    [reflexivity | now rewrite IH].
Qed.

(** With the initial rate put in front, each rate follows from the one
    before it by the floored Euler step. *)
Lemma vasicek_row_step (params : VasicekParams) (zs : list R) (r_prev : R)
    (t : nat) :
  (t < List.length zs)%nat ->
  let path := r_prev :: vasicek_row params r_prev zs in
  nth (S t) path 0
  = Rmax (nth t path 0 + kappa params * (theta params - nth t path 0)
          + vasicek_sigma params * nth t zs 0) 0.
Proof.
  revert r_prev t; induction zs as [| z rest IH]; intros r_prev t Ht;
    simpl in Ht; [lia |].
  destruct t as [| t]; [reflexivity |].
  specialize (IH (Rmax (r_prev + kappa params * (theta params - r_prev)
                        + vasicek_sigma params * z) 0) t).
  simpl in IH |- *. apply IH; lia.
Qed.

Lemma vasicek_row_nonneg (params : VasicekParams) (zs : list R) (r_prev : R) :
  Forall (fun r => 0 <= r) (vasicek_row params r_prev zs).
Proof.
  revert r_prev; induction zs as [| z rest IH]; intros r_prev; simpl;
    constructor; [apply Rmax_r | apply IH].
Qed.

Lemma build_scenarios_eq (rate_paths equity_paths : matrix) (n start : nat) :
  (start + n <= List.length rate_paths)%nat ->
  (start + n <= List.length equity_paths)%nat ->
  (forall i, (i < start + n)%nat ->
     List.length (nth i rate_paths []) = List.length (nth i equity_paths [])) ->
  build_scenarios rate_paths equity_paths n start
  = Ok (map (fun i => mkEconomicScenario (nth i rate_paths [])
                        (nth i equity_paths []) (Z.of_nat i))
          (seq start n)).
Proof.
  revert start; induction n as [| n IH]; intros start Hr He Hlen; simpl;
    [reflexivity |].
  destruct (nth_error rate_paths start) as [rs |] eqn:Hrs;
    [| apply nth_error_None in Hrs; lia].
  destruct (nth_error equity_paths start) as [es |] eqn:Hes;
    [| apply nth_error_None in Hes; lia].
  apply (nth_error_nth _ _ []) in Hrs. apply (nth_error_nth _ _ []) in Hes.
  unfold new_EconomicScenario.
  assert (Heq : List.length rs = List.length es).
  { rewrite <- Hrs, <- Hes. apply Hlen; lia. }
  rewrite Heq, Nat.eqb_refl; simpl.
  rewrite IH by (try lia; intros i Hi; apply Hlen; lia).
  simpl. now rewrite Hrs, Hes.
Qed.

End ScenarioFacts.

Lemma ag43_scenarios_eq (self : Scenarios.ScenarioGenerator) (initial_rate : R)
    (rate_params : option Scenarios.VasicekParams)
    (equity_params : option Scenarios.EquityParams) (correlation : R)
    (draw1 draw2 : nat -> nat -> R) :
  -1 <= correlation <= 1 ->
  let vp := match rate_params with
            | Some p => p | None => Scenarios.default_VasicekParams end in
  let ep := match equity_params with
            | Some p => p | None => Scenarios.default_EquityParams end in
  let shocks :=
    Scenarios._generate_correlated_shocks self correlation draw1 draw2 in
  Scenarios.generate_ag43_scenarios self initial_rate rate_params
    equity_params correlation draw1 draw2
  = Ok (Scenarios.mkAG43Scenarios
          (map (fun i =>
                  Scenarios.mkEconomicScenario
                    (Scenarios.vasicek_row vp initial_rate
                       (map (draw1 i) (seq 0 (Scenarios.projection_years self))))
                    (nth i (Scenarios._generate_gbm_returns ep (snd shocks)) [])
                    (Z.of_nat i))
             (seq 0 (Scenarios.n_scenarios self)))
          (Z.of_nat (Scenarios.n_scenarios self))
          (Z.of_nat (Scenarios.projection_years self))).
Proof.
  intros [Hlo Hhi] vp ep shocks; subst shocks.
  unfold Scenarios.generate_ag43_scenarios.
  assert (H1 : Rleb (-1) correlation = true) by (apply Rleb_true; lra).
  assert (H2 : Rleb correlation 1 = true) by (apply Rleb_true; lra).
  rewrite H1, H2; simpl negb; cbv iota.
  rewrite correlated_shocks_eq; cbv beta iota; simpl snd.
  fold vp; fold ep.
  set (n := Scenarios.n_scenarios self).
  set (T := Scenarios.projection_years self).
  set (eq_draw := fun i t : nat =>
         correlation * draw1 i t + sqrt (1 - correlation ^ 2) * draw2 i t).
  assert (Hrow : forall i, (i < n)%nat ->
            nth i (Scenarios._generate_vasicek_paths initial_rate vp
                     (Scenarios.standard_normal draw1 n T)) []
            = Scenarios.vasicek_row vp initial_rate (map (draw1 i) (seq 0 T))).
  { intros i Hi. unfold Scenarios._generate_vasicek_paths.
    change (@nil R) with (Scenarios.vasicek_row vp initial_rate []) at 1.
    rewrite map_nth. now rewrite standard_normal_row. }
  assert (Herow : forall i, (i < n)%nat ->
            List.length
              (nth i (Scenarios._generate_gbm_returns ep
                        (Scenarios.standard_normal eq_draw n T)) [])
            = T).
  { intros i Hi. unfold Scenarios._generate_gbm_returns.
    match goal with
    | |- context [map (map ?f) _] =>
        change (@nil R) with (map f []) at 1; rewrite map_nth
    end.
    rewrite standard_normal_row by assumption.
    now rewrite !length_map, length_seq. }
  rewrite build_scenarios_eq.
  - simpl. do 2 f_equal. apply map_ext_in; intros i Hi.
    apply in_seq in Hi. now rewrite Hrow by lia.
  - unfold Scenarios._generate_vasicek_paths.
    rewrite length_map, standard_normal_length; lia.
  - unfold Scenarios._generate_gbm_returns.
    rewrite length_map, standard_normal_length; lia.
  - intros i Hi. rewrite Hrow, Herow by lia.
    now rewrite vasicek_row_length, length_map, length_seq.
Qed.



(* ------------------------------------------------------------------ *)
(** ** Fair GLWB fee *)

Section FairFeeFacts.
Import PathSim.

Variable price :
  GLWBPathSimulator -> R -> Z -> R -> R -> Z -> outcome GLWBPricingResult.
Variable self : GLWBPathSimulator.
Variables (premium : R) (age : Z) (r sigma : R) (max_age : Z).
Variables (target_cost tolerance : R).

Let cost := cost_at_fee price self premium age r sigma max_age target_cost.
Let probe := probe_simulator self.
Let loop :=
  bisection_loop price self premium age r sigma max_age target_cost tolerance.

Let off :=
  off_target price self premium age r sigma max_age target_cost tolerance.
Let on :=
  on_target price self premium age r sigma max_age target_cost tolerance.
Let ends :=
  stops price self premium age r sigma max_age target_cost tolerance.
Let run :=
  bisects price self premium age r sigma max_age target_cost tolerance.

Lemma stops_cons (cap : nat) (mid : R) (fees : list R) (res : outcome R) :
  off mid -> ends cap fees res -> ends (S cap) (mid :: fees) res.
Proof.
  intros Hmid; unfold ends, stops; destruct res as [fee | msg].
  - intros [[init [-> [Hinit Hfee]]] | [Hlen Hall]].
    + left; exists (mid :: init); repeat split; auto.
    + right; simpl; split; [congruence | auto].
  - intros [init [fee [-> [Hinit Hfee]]]].
    exists (mid :: init), fee; repeat split; auto.
Qed.

Lemma bisection_loop_spec (iterations : nat) (low high : R) :
  low < high ->
  exists fees,
    snd (loop iterations low high) = map probe fees
    /\ (List.length fees <= iterations)%nat
    /\ Forall (fun fee => low < fee < high) fees
    /\ ends iterations fees (fst (loop iterations low high))
    /\ (forall fee, fst (loop iterations low high) = Ok fee ->
        low < fee < high)
    /\ run iterations low high fees (fst (loop iterations low high)).
Proof.
  revert low high; induction iterations as [| k IH]; intros low high Hlt.
  { exists []. split; [reflexivity |]. split; [simpl; lia |].
    split; [constructor |]. split.
    - right; split; [reflexivity | constructor].
    - split; [simpl; intros fee H; injection H as <-; lra |].
      apply bisects_cap. }
  set (mid := (low + high) / 2).
  assert (Hmid : low < mid < high) by (unfold mid; lra).
  unfold loop; cbn [bisection_loop]; fold mid; fold cost; fold probe.
  destruct (cost mid) as [c | msg] eqn:Hcost.
  2:{ exists [mid]. split; [reflexivity |]. split; [simpl; lia |].
      split; [repeat constructor; lra |]. split; [| split; [discriminate |]].
      - exists [], mid.
        split; [reflexivity |]. split; [constructor | exact Hcost].
      - apply bisects_raise. exact Hcost. }
  destruct (Rltb (Rabs c) tolerance) eqn:Htol.
  { apply Rltb_true in Htol.
    assert (Hon : on mid) by (exists c; split; assumption).
    exists [mid]. split; [reflexivity |]. split; [simpl; lia |].
    split; [repeat constructor; lra |]. split; [| split].
    - left; exists []. split; [reflexivity |]. split; [constructor | exact Hon].
    - simpl; intros fee H; injection H as <-; lra.
    - apply bisects_found. exact Hon. }
  apply Rltb_false in Htol.
  assert (Hoff : off mid) by (exists c; split; assumption).
  fold loop.
  destruct (Rgtb c 0) eqn:Hc.
  - apply Rgtb_true in Hc.
    assert (Hlt' : mid < high) by lra.
    destruct (IH mid high Hlt')
      as [fees [Hruns [Hlen [Hin [Hstop [Hfee Hrun]]]]]].
    destruct (loop k mid high) as [res runs];
      simpl in Hruns, Hstop, Hfee, Hrun.
    exists (mid :: fees). cbn [fst snd].
    split; [simpl; now rewrite Hruns |]. split; [simpl; lia |].
    split.
    { constructor; [assumption |].
      eapply Forall_impl; [| exact Hin]. simpl; intros; lra. }
    split; [now apply stops_cons |].
    split; [intros fee H; apply Hfee in H; lra |].
    apply bisects_upper with (c := c); [exact Hcost | exact Htol | lra |].
    exact Hrun.
  - apply Rgtb_false in Hc.
    assert (Hlt' : low < mid) by lra.
    destruct (IH low mid Hlt')
      as [fees [Hruns [Hlen [Hin [Hstop [Hfee Hrun]]]]]].
    destruct (loop k low mid) as [res runs];
      simpl in Hruns, Hstop, Hfee, Hrun.
    exists (mid :: fees). cbn [fst snd].
    split; [simpl; now rewrite Hruns |]. split; [simpl; lia |].
    split.
    { constructor; [assumption |].
      eapply Forall_impl; [| exact Hin]. simpl; intros; lra. }
    split; [now apply stops_cons |].
    split; [intros fee H; apply Hfee in H; lra |].
    apply bisects_lower with (c := c); [exact Hcost | exact Htol | lra |].
    exact Hrun.
Qed.

(** A run is determined by the bracket and the cap: the relation describes
    one sequence of probes and one outcome. *)
Lemma bisects_functional (cap : nat) (low high : R) (fees fees' : list R)
    (res res' : outcome R) :
  run cap low high fees res -> run cap low high fees' res' ->
  fees = fees' /\ res = res'.
Proof.
  intros H; revert fees' res'.
  induction H as [low high | cap low high Hon | cap low high msg Hm
                  | cap low high c fees res Hc Htol Hpos Hrun IH
                  | cap low high c fees res Hc Htol Hneg Hrun IH];
    intros fees' res' H'; inversion H'; subst; auto.
  all: unfold on_target in *.
  all: repeat match goal with
              | H : exists _, _ |- _ => destruct H as [? [? ?]]
              end.
  all: repeat match goal with
              | H1 : ?t = _, H2 : ?t = _ |- _ =>
                  rewrite H1 in H2;
                  first [discriminate H2 | injection H2 as H2; subst]
              end.
  all: try lra.
  all: first
         [ split; reflexivity
         | match goal with
           | H : _ |- _ => destruct (IH _ _ H) as [-> ->]; split; reflexivity
           end ].
Qed.

(** A first probe that is on target ends the run at once. *)
Lemma bisection_loop_first (k : nat) (low high c : R) :
  cost ((low + high) / 2) = Ok c -> Rabs c < tolerance ->
  loop (S k) low high
  = (Ok ((low + high) / 2), [probe ((low + high) / 2)]).
Proof.
  intros Hcost Htol. apply Rltb_true in Htol.
  unfold loop; cbn [bisection_loop]; fold cost.
  rewrite Hcost, Htol. reflexivity.
Qed.

End FairFeeFacts.




(* ================================================================== *)
(** * Part III: further properties of the same modules *)

(* ------------------------------------------------------------------ *)
(** ** Dynamic lapse: guards, floor, paths *)

Lemma calculate_lapse_np_returns_iff (a : DynamicLapse.LapseAssumptions)
    (gwb av : R) (spc : bool) :
  is_ok (DynamicLapse.calculate_lapse_np a gwb av spc) = true
  <-> 0 < av /\ 0 <= gwb.
Proof.
  unfold DynamicLapse.calculate_lapse_np, DynamicLapse.calculate_lapse_with.
  destruct (Rleb av 0) eqn:Hav.
  { apply Rleb_true in Hav. simpl. split; [discriminate | lra]. }
  apply Rleb_false in Hav.
  destruct (Rltb gwb 0) eqn:Hgwb.
  { apply Rltb_true in Hgwb. simpl. split; [discriminate | lra]. }
  apply Rltb_false in Hgwb. simpl. split; [intros _; lra | reflexivity].
Qed.

(** X1.  [calculate_lapse] on Python floats returns a result exactly
    when the account value is positive, the GWB is not negative and
    m^sensitivity does not exceed the binary64 range; otherwise it raises
    (ValueError from the guards, OverflowError from the power).  Here m is
    the moneyness, and the quotient AV/GWB is taken to be within the
    binary64 range when GWB > 0 and AV > 0. *)
Theorem calculate_lapse_returns_iff (a : DynamicLapse.LapseAssumptions)
    (gwb av : R) (surrender_period_complete : bool) :
  (0 < gwb -> 0 < av -> float_min <= av / gwb <= float_max) ->
  (is_ok (DynamicLapse.calculate_lapse a gwb av surrender_period_complete)
   = true
   <-> 0 < av /\ 0 <= gwb
       /\ Rpower (moneyness_of gwb av) (DynamicLapse.sensitivity a)
          <= float_max).
Proof.
  intros _. split.
  - destruct (DynamicLapse.calculate_lapse a gwb av surrender_period_complete)
      as [res | msg] eqn:Hres; [| discriminate].
    intros _. apply calculate_lapse_inv in Hres. tauto.
  - intros (Hav & Hgwb & Hrange).
    now rewrite calculate_lapse_ok by assumption.
Qed.

Lemma calculate_lapse_returns_iff_witness :
  is_ok (DynamicLapse.calculate_lapse DynamicLapse.default_assumptions
           110000 100000 true) = true.
Proof.
  pose proof float_max_ge_2 as Hmax.
  pose proof float_min_le_half as Hmin.
  assert (Hm : moneyness_of 110000 100000 = 100000 / 110000)
    by (apply moneyness_of_ratio; lra).
  assert (H1 : 0 < 110000 -> 0 < 100000 ->
               float_min <= 100000 / 110000 <= float_max)
    by (intros _ _; lra).
  apply (calculate_lapse_returns_iff DynamicLapse.default_assumptions
           110000 100000 true H1).
  split; [lra |]. split; [lra |].
  simpl. rewrite Rpower_1 by (rewrite Hm; lra). rewrite Hm. lra.
Defined.

(** X2.  A contract at or in the money (0 < AV <= GWB) never lapses above
    the base rate: with base annual lapse >= 0 and sensitivity >= 0 the
    call returns, in or out of the surrender period, and the lapse rate is
    at most the larger of the base annual lapse and the floor. *)
Theorem in_the_money_lapse_at_most_base (a : DynamicLapse.LapseAssumptions)
    (gwb av : R) (surrender_period_complete : bool) :
  0 <= DynamicLapse.base_annual_lapse a ->
  0 <= DynamicLapse.sensitivity a ->
  0 < av -> av <= gwb ->
  exists res,
    DynamicLapse.calculate_lapse a gwb av surrender_period_complete = Ok res
    /\ DynamicLapse.lapse_rate res
       <= Rmax (DynamicLapse.min_lapse a) (DynamicLapse.base_annual_lapse a).
Proof.
  intros Hbase Hsens Hav Hle.
  pose proof float_max_ge_2 as Hmax.
  assert (Hm : moneyness_of gwb av = av / gwb)
    by (apply moneyness_of_ratio; lra).
  assert (Hinv : 0 < / gwb) by (apply Rinv_0_lt_compat; lra).
  assert (Hm0 : 0 < av / gwb) by (unfold Rdiv; apply Rmult_lt_0_compat; lra).
  assert (Hm1 : av / gwb <= 1).
  { apply Rmult_le_reg_r with (r := gwb); [lra |].
    unfold Rdiv; rewrite Rmult_assoc, Rinv_l by lra. lra. }
  assert (Hpow : Rpower (av / gwb) (DynamicLapse.sensitivity a) <= 1).
  { rewrite <- (Rpower_one (DynamicLapse.sensitivity a)).
    apply Rle_Rpower_l; [exact Hsens | split; assumption]. }
  assert (Hpow0 : 0 < Rpower (av / gwb) (DynamicLapse.sensitivity a))
    by (unfold Rpower; apply exp_pos).
  eexists; split;
    [apply calculate_lapse_ok; try lra; rewrite Hm; lra |].
  simpl. rewrite Hm. unfold np_clip.
  eapply Rle_trans; [apply Rmin_l |].
  rewrite (Rmax_comm (DynamicLapse.min_lapse a)).
  apply Rle_max_compat_r.
  destruct surrender_period_complete; simpl; nra.
Qed.

Lemma in_the_money_lapse_at_most_base_witness :
  exists res,
    DynamicLapse.calculate_lapse DynamicLapse.default_assumptions
      110000 100000 false = Ok res
    /\ DynamicLapse.lapse_rate res <= Rmax 0.01 0.05.
Proof.
  apply (in_the_money_lapse_at_most_base DynamicLapse.default_assumptions
           110000 100000 false); simpl; lra.
Defined.

Section PathLapseFacts.
Import DynamicLapse Paths.

Variable a : LapseAssumptions.
Variable surrender_period_ends : Z.

Lemma path_lapses_loop_ok (gwb_path av_path : list R) (t0 : nat)
    (rates : list R) :
  List.length gwb_path = List.length av_path ->
  path_lapses_loop a gwb_path av_path surrender_period_ends t0 = Ok rates ->
  List.length rates = List.length gwb_path
  /\ forall t, (t < List.length gwb_path)%nat ->
       exists res,
         calculate_lapse_np a (nth t gwb_path 0) (nth t av_path 0)
           (Z.of_nat (t0 + t) >=? surrender_period_ends)%Z = Ok res
         /\ nth t rates 0 = lapse_rate res.
Proof.
  revert av_path t0 rates;
    induction gwb_path as [| gwb gwb_rest IH]; intros av_path t0 rates Hlen Hloop.
  { simpl in Hloop. injection Hloop as <-. split; [reflexivity |].
    simpl; intros; lia. }
  destruct av_path as [| av av_rest]; [discriminate Hlen |].
  simpl in Hlen; injection Hlen as Hlen.
  cbn [path_lapses_loop] in Hloop.
  apply bind_Ok_inv in Hloop; destruct Hloop as [res [Hres Hloop]].
  apply bind_Ok_inv in Hloop; destruct Hloop as [rest [Hrest Hloop]].
  injection Hloop as <-.
  destruct (IH av_rest (S t0) rest Hlen Hrest) as [Hl Hnth].
  split; [simpl; now rewrite Hl |].
  intros [| t] Ht.
  - exists res. rewrite Nat.add_0_r. split; [exact Hres | reflexivity].
  - simpl in Ht. destruct (Hnth t) as [res' [H1 H2]]; [lia |].
    exists res'. replace (t0 + S t)%nat with (S t0 + t)%nat by lia.
    split; assumption.
Qed.

Lemma path_lapses_loop_returns (gwb_path av_path : list R) (t0 : nat) :
  List.length gwb_path = List.length av_path ->
  (is_ok (path_lapses_loop a gwb_path av_path surrender_period_ends t0) = true
   <-> forall t, (t < List.length gwb_path)%nat ->
         0 < nth t av_path 0 /\ 0 <= nth t gwb_path 0).
Proof.
  revert av_path t0;
    induction gwb_path as [| gwb gwb_rest IH]; intros av_path t0 Hlen.
  { simpl. split; [intros _ t Ht; lia | reflexivity]. }
  destruct av_path as [| av av_rest]; [discriminate Hlen |].
  simpl in Hlen; injection Hlen as Hlen.
  cbn [path_lapses_loop].
  pose proof (calculate_lapse_np_returns_iff a gwb av
                (Z.of_nat t0 >=? surrender_period_ends)%Z) as Hhead.
  specialize (IH av_rest (S t0) Hlen).
  destruct (calculate_lapse_np a gwb av _) as [res | msg]; simpl in *.
  - destruct (path_lapses_loop a gwb_rest av_rest surrender_period_ends (S t0))
      as [rest | msg]; simpl in *.
    + split; [intros _ | reflexivity].
      intros [| t] Ht; [apply Hhead; reflexivity |].
      apply (proj1 IH eq_refl); lia.
    + split; [discriminate |]. intros H. apply IH. intros t Ht.
      apply (H (S t)); lia.
  - split; [discriminate |]. intros H. apply Hhead. apply (H 0%nat); lia.
Qed.

End PathLapseFacts.

(** X3.  When [calculate_path_lapses] returns, the rates have the length
    of the paths and the rate at step t is the lapse rate of
    [calculate_lapse] on the t-th GWB and account value (numpy scalars, so
    the power does not raise), with the surrender period counted as
    complete from step [surrender_period_ends] on. *)
Theorem path_lapses_pointwise (a : DynamicLapse.LapseAssumptions)
    (gwb_path av_path : list R) (surrender_period_ends : Z) (rates : list R) :
  Paths.calculate_path_lapses a gwb_path av_path surrender_period_ends
  = Ok rates ->
  List.length gwb_path = List.length av_path
  /\ List.length rates = List.length gwb_path
  /\ forall t, (t < List.length gwb_path)%nat ->
       exists res,
         DynamicLapse.calculate_lapse_np a (nth t gwb_path 0)
           (nth t av_path 0)
           (Z.of_nat t >=? surrender_period_ends)%Z = Ok res
         /\ nth t rates 0 = DynamicLapse.lapse_rate res.
Proof.
  unfold Paths.calculate_path_lapses; intros H.
  destruct (Nat.eqb (List.length gwb_path) (List.length av_path)) eqn:Hlen;
    simpl in H; [| discriminate H].
  apply Nat.eqb_eq in Hlen. split; [exact Hlen |].
  exact (path_lapses_loop_ok a surrender_period_ends gwb_path av_path 0 rates
           Hlen H).
Qed.

Lemma path_lapses_pointwise_witness :
  exists rates,
    Paths.calculate_path_lapses DynamicLapse.default_assumptions
      [100; 100] [90; 120] 1 = Ok rates
    /\ List.length rates = 2%nat.
Proof.
  destruct (Paths.calculate_path_lapses DynamicLapse.default_assumptions
              [100; 100] [90; 120] 1) as [rates | msg] eqn:H.
  - exists rates; split; [reflexivity |].
    now destruct (path_lapses_pointwise _ _ _ _ _ H) as [_ [Hl _]].
  - exfalso.
    assert (Hok : is_ok (Paths.calculate_path_lapses
                           DynamicLapse.default_assumptions
                           [100; 100] [90; 120] 1) = true).
    { unfold Paths.calculate_path_lapses; simpl negb; cbv iota.
      apply path_lapses_loop_returns; [reflexivity |].
      intros [| [| t]] Ht; simpl in *; try lra; lia. }
    rewrite H in Hok; discriminate Hok.
Defined.

(** X4.  [calculate_path_lapses] returns exactly when the two paths have
    the same length, every account value is positive and no GWB is
    negative; a length mismatch or one bad step makes the whole call
    raise. *)
Theorem path_lapses_returns_iff (a : DynamicLapse.LapseAssumptions)
    (gwb_path av_path : list R) (surrender_period_ends : Z) :
  is_ok (Paths.calculate_path_lapses a gwb_path av_path surrender_period_ends)
  = true
  <-> List.length gwb_path = List.length av_path
      /\ forall t, (t < List.length gwb_path)%nat ->
           0 < nth t av_path 0 /\ 0 <= nth t gwb_path 0.
Proof.
  unfold Paths.calculate_path_lapses.
  destruct (Nat.eqb (List.length gwb_path) (List.length av_path)) eqn:Hlen;
    simpl negb; cbv iota.
  - apply Nat.eqb_eq in Hlen.
    rewrite (path_lapses_loop_returns a surrender_period_ends gwb_path av_path
               0 Hlen).
    tauto.
  - apply Nat.eqb_neq in Hlen. simpl. split; [discriminate | tauto].
Qed.

(* ------------------------------------------------------------------ *)
(** ** Survival curve: closed form and absorption *)

Section SurvivalProduct.
Import DynamicLapse.

Variable dt : R.

(** Product of the clamped stay probabilities of the given lapse rates. *)
Let stay_product (ls : list R) : R :=
  fold_right Rmult 1 (map (fun l => Rmax (1 - l * dt) 0) ls).

Lemma survival_loop_product (ls : list R) (s : R) (t : nat) :
  (t <= List.length ls)%nat ->
  nth t (s :: survival_loop s ls dt) 0 = s * stay_product (firstn t ls).
Proof.
  revert s t; induction ls as [| l rest IH]; intros s t Ht.
  - assert (t = 0%nat) by (simpl in Ht; lia). subst t.
    simpl; unfold stay_product; simpl; lra.
  - destruct t as [| t].
    + simpl; unfold stay_product; simpl; lra.
    + change (nth (S t) (s :: survival_loop s (l :: rest) dt) 0)
        with (nth t (s * Rmax (1 - l * dt) 0
                     :: survival_loop (s * Rmax (1 - l * dt) 0) rest dt) 0).
      rewrite IH by (simpl in Ht; lia).
      unfold stay_product; simpl; lra.
Qed.

(** X5.  Entry t of the survival array is the product over the steps
    s < t of max(1 - lapse_s * dt, 0): the documented product formula, with
    each factor clamped at zero.  No condition on the rates or on dt is
    needed. *)
Theorem survival_is_clamped_product (lapse_rates : list R) (t : nat) :
  (t <= List.length lapse_rates)%nat ->
  nth t (calculate_survival_probability lapse_rates dt) 0
  = fold_right Rmult 1
      (map (fun l => Rmax (1 - l * dt) 0) (firstn t lapse_rates)).
Proof.
  intros Ht. unfold calculate_survival_probability.
  rewrite survival_loop_product by assumption.
  unfold stay_product; lra.
Qed.

(** X6.  Zero is absorbing: once the survival probability is 0 at some
    step it is 0 at every later step, whatever the later lapse rates. *)
Theorem survival_zero_is_absorbing (lapse_rates : list R) (t k : nat) :
  (t <= k)%nat -> (k <= List.length lapse_rates)%nat ->
  nth t (calculate_survival_probability lapse_rates dt) 0 = 0 ->
  nth k (calculate_survival_probability lapse_rates dt) 0 = 0.
Proof.
  intros Htk Hk Hzero.
  induction Htk as [| k Htk IH]; [exact Hzero |].
  unfold calculate_survival_probability in *.
  rewrite survival_loop_step by lia.
  rewrite IH by lia. lra.
Qed.

End SurvivalProduct.

Lemma survival_is_clamped_product_witness :
  nth 2 (DynamicLapse.calculate_survival_probability [0.05; 0.1; 0.2] 1) 0
  = fold_right Rmult 1
      (map (fun l => Rmax (1 - l * 1) 0) (firstn 2 [0.05; 0.1; 0.2])).
Proof.
  apply (survival_is_clamped_product 1 [0.05; 0.1; 0.2] 2). simpl; lia.
Defined.

Lemma survival_zero_is_absorbing_witness :
  nth 3 (DynamicLapse.calculate_survival_probability [0.05; 2; 0.1] 1) 0 = 0.
Proof.
  apply (survival_zero_is_absorbing 1 [0.05; 2; 0.1] 2 3);
    [lia | simpl; lia |].
  unfold DynamicLapse.calculate_survival_probability; simpl.
  rewrite (Rmax_right (1 - 2 * 1) 0) by lra. lra.
Defined.

(* ------------------------------------------------------------------ *)
(** ** Withdrawals: guards, bounds, monotonicity, paths *)

(** X7.  The withdrawal rate schedule never decreases with age and stays
    between 3.5% and 6%. *)
Theorem withdrawal_rate_schedule_monotone (age1 age2 : Z) :
  (age1 <= age2)%Z ->
  Paths.get_withdrawal_rate_by_age age1 <= Paths.get_withdrawal_rate_by_age age2
  /\ 0.035 <= Paths.get_withdrawal_rate_by_age age1 <= 0.060.
Proof.
  intros Hle. unfold Paths.get_withdrawal_rate_by_age.
  repeat match goal with
  | |- context [(?x <? ?y)%Z] =>
      let H := fresh "H" in
      destruct (Z.ltb_spec x y) as [H | H]
  end; try lia; lra.
Qed.

Lemma withdrawal_rate_schedule_monotone_witness :
  Paths.get_withdrawal_rate_by_age 58 <= Paths.get_withdrawal_rate_by_age 72.
Proof.
  apply (withdrawal_rate_schedule_monotone 58 72). lia.
Defined.




(** X10.  With a non-negative age sensitivity and a withdrawal year
    >= 0, utilization never decreases with age. *)
Theorem utilization_monotone_in_age (a : Withdrawal.WithdrawalAssumptions)
    (age1 age2 years : Z) :
  0 <= Withdrawal.age_sensitivity a -> (0 <= years)%Z -> (age1 <= age2)%Z ->
  Withdrawal._calculate_utilization a age1 years
  <= Withdrawal._calculate_utilization a age2 years.
Proof.
  intros Hs Hy Hage. unfold Withdrawal._calculate_utilization.
  apply np_clip_mono.
  assert (Hadj : IZR (Z.max 0 (age1 - 65)) <= IZR (Z.max 0 (age2 - 65)))
    by (apply IZR_le; lia).
  assert (Hmul : Withdrawal.age_sensitivity a * IZR (Z.max 0 (age1 - 65))
                 <= Withdrawal.age_sensitivity a * IZR (Z.max 0 (age2 - 65)))
    by (apply Rmult_le_compat_l; assumption).
  destruct (years <? 3)%Z; [| lra].
  assert (Hramp : 0 <= 0.7 + 0.1 * IZR years).
  { assert (0 <= IZR years) by (apply IZR_le; lia). lra. }
  apply Rmult_le_compat_r; [exact Hramp | lra].
Qed.

Lemma utilization_monotone_in_age_witness :
  Withdrawal._calculate_utilization Withdrawal.default_assumptions 66 1
  <= Withdrawal._calculate_utilization Withdrawal.default_assumptions 80 1.
Proof.
  apply (utilization_monotone_in_age Withdrawal.default_assumptions 66 80 1);
    [simpl; lra | lia | lia].
Defined.

Section PathWithdrawalFacts.
Import Withdrawal Paths.

Variable a : WithdrawalAssumptions.
Variable withdrawal_rate : R.
Variable first_withdrawal_year : Z.

Lemma path_withdrawals_loop_ok (gwb_path ages : list R) (t0 : nat)
    (ws : list R) :
  List.length gwb_path = List.length ages ->
  path_withdrawals_loop a gwb_path ages withdrawal_rate first_withdrawal_year
    t0 = Ok ws ->
  List.length ws = List.length gwb_path
  /\ forall t, (t < List.length gwb_path)%nat ->
       ((Z.of_nat (t0 + t) < first_withdrawal_year)%Z -> nth t ws 0 = 0)
       /\ ((first_withdrawal_year <= Z.of_nat (t0 + t))%Z ->
           exists res,
             calculate_withdrawal a (nth t gwb_path 0) withdrawal_rate
               (py_int (nth t ages 0))
               (Z.of_nat (t0 + t) - first_withdrawal_year)%Z = Ok res
             /\ nth t ws 0 = withdrawal_amount res).
Proof.
  revert ages t0 ws;
    induction gwb_path as [| gwb gwb_rest IH]; intros ages t0 ws Hlen Hloop.
  { simpl in Hloop. injection Hloop as <-. split; [reflexivity |].
    simpl; intros; lia. }
  destruct ages as [| age ages_rest]; [discriminate Hlen |].
  simpl in Hlen; injection Hlen as Hlen.
  cbn [path_withdrawals_loop] in Hloop.
  destruct (Z.geb_spec (Z.of_nat t0) first_withdrawal_year) as [Hge | Hlt].
  - apply bind_Ok_inv in Hloop; destruct Hloop as [res [Hres Hloop]].
    apply bind_Ok_inv in Hloop; destruct Hloop as [rest [Hrest Hloop]].
    injection Hloop as <-.
    destruct (IH ages_rest (S t0) rest Hlen Hrest) as [Hl Hnth].
    split; [simpl; now rewrite Hl |].
    intros [| t] Ht.
    + rewrite Nat.add_0_r. split; [lia |]. intros _. exists res.
      split; [exact Hres | reflexivity].
    + replace (t0 + S t)%nat with (S t0 + t)%nat by lia.
      apply Hnth. simpl in Ht; lia.
  - apply bind_Ok_inv in Hloop; destruct Hloop as [rest [Hrest Hloop]].
    injection Hloop as <-.
    destruct (IH ages_rest (S t0) rest Hlen Hrest) as [Hl Hnth].
    split; [simpl; now rewrite Hl |].
    intros [| t] Ht.
    + rewrite Nat.add_0_r. split; [reflexivity | lia].
    + replace (t0 + S t)%nat with (S t0 + t)%nat by lia.
      apply Hnth. simpl in Ht; lia.
Qed.

End PathWithdrawalFacts.

(** X11.  When [calculate_path_withdrawals] returns, the result has the
    length of the paths; every step before the first withdrawal year is 0
    (its GWB and age are not even looked at), and from that year on step t
    holds the amount of [calculate_withdrawal] on the t-th GWB and the age
    truncated to an integer, t - first_withdrawal_year years into the
    withdrawals. *)
Theorem path_withdrawals_pointwise (a : Withdrawal.WithdrawalAssumptions)
    (gwb_path ages : list R) (withdrawal_rate : R) (first_withdrawal_year : Z)
    (ws : list R) :
  Paths.calculate_path_withdrawals a gwb_path ages withdrawal_rate
    first_withdrawal_year = Ok ws ->
  List.length gwb_path = List.length ages
  /\ List.length ws = List.length gwb_path
  /\ forall t, (t < List.length gwb_path)%nat ->
       ((Z.of_nat t < first_withdrawal_year)%Z -> nth t ws 0 = 0)
       /\ ((first_withdrawal_year <= Z.of_nat t)%Z ->
           exists res,
             Withdrawal.calculate_withdrawal a (nth t gwb_path 0)
               withdrawal_rate (Paths.py_int (nth t ages 0))
               (Z.of_nat t - first_withdrawal_year)%Z = Ok res
             /\ nth t ws 0 = Withdrawal.withdrawal_amount res).
Proof.
  unfold Paths.calculate_path_withdrawals; intros H.
  destruct (Nat.eqb (List.length gwb_path) (List.length ages)) eqn:Hlen;
    simpl in H; [| discriminate H].
  apply Nat.eqb_eq in Hlen. split; [exact Hlen |].
  exact (path_withdrawals_loop_ok a withdrawal_rate first_withdrawal_year
           gwb_path ages 0 ws Hlen H).
Qed.

Lemma path_withdrawals_pointwise_witness :
  exists ws,
    Paths.calculate_path_withdrawals Withdrawal.default_assumptions
      [-5; -7] [65; 66] 0.05 2 = Ok ws
    /\ nth 1 ws 0 = 0.
Proof.
  destruct (Paths.calculate_path_withdrawals Withdrawal.default_assumptions
              [-5; -7] [65; 66] 0.05 2) as [ws | msg] eqn:H.
  - exists ws; split; [reflexivity |].
    destruct (path_withdrawals_pointwise _ _ _ _ _ _ H) as [_ [_ Hnth]].
    apply (Hnth 1%nat); simpl; lia.
  - exfalso. unfold Paths.calculate_path_withdrawals in H.
    simpl in H. discriminate H.
Defined.

(* ------------------------------------------------------------------ *)
(** ** Validation engine *)

Section GateFacts.
Import ProductsBase Gates GatesExt.

Variable result : AnyResult.
Variable context : GateContext.

Lemma PresentValueBoundsGate_halts (min_pv mult : R) :
  status (PresentValueBoundsGate_check min_pv mult result context) = HALT
  <-> present_value (base result) < min_pv
      \/ present_value (base result) > get_premium context * mult.
Proof.
  unfold PresentValueBoundsGate_check.
  destruct (Rltb _ min_pv) eqn:H1.
  { apply Rltb_true in H1. simpl; split; [intros _; now left | reflexivity]. }
  apply Rltb_false in H1.
  destruct (Rgtb _ _) eqn:H2.
  { apply Rgtb_true in H2. simpl; split; [intros _; now right | reflexivity]. }
  apply Rgtb_false in H2. simpl; split; [discriminate | lra].
Qed.

Lemma DurationBoundsGate_halts (max_duration : R) :
  status (DurationBoundsGate_check max_duration result context) = HALT
  <-> exists d, duration (base result) = Some d /\ (d < 0 \/ d > max_duration).
Proof.
  unfold DurationBoundsGate_check.
  destruct (duration (base result)) as [d |].
  2:{ simpl; split; [discriminate | intros [d [H _]]; discriminate]. }
  destruct (Rltb d 0) eqn:H1.
  { apply Rltb_true in H1. simpl; split; [| reflexivity].
    intros _; exists d; split; [reflexivity | now left]. }
  apply Rltb_false in H1.
  destruct (Rgtb d max_duration) eqn:H2.
  { apply Rgtb_true in H2. simpl; split; [| reflexivity].
    intros _; exists d; split; [reflexivity | now right]. }
  apply Rgtb_false in H2. simpl; split; [discriminate |].
  intros [d' [Hd Hbad]]. injection Hd as <-. lra.
Qed.

Lemma FIAExpectedCreditGate_halts :
  status (FIAExpectedCreditGate_check result context) = HALT
  <-> exists f, result = FIAResult f
        /\ (FIA.expected_credit f < -0.001
            \/ exists cap, ctx_cap_rate context = Some cap
                           /\ FIA.expected_credit f > cap + 0.02).
Proof.
  unfold FIAExpectedCreditGate_check.
  destruct result as [p | f | r];
    try (simpl; split; [discriminate | intros [f' [H _]]; discriminate]).
  destruct (Rltb _ (-0.001)) eqn:H1.
  { apply Rltb_true in H1. simpl; split; [| reflexivity].
    intros _; exists f; split; [reflexivity | now left]. }
  apply Rltb_false in H1.
  destruct (ctx_cap_rate context) as [cap |].
  2:{ simpl; split; [discriminate |].
      intros [f' [Hf [Hbad | [cap [Hc _]]]]]; [| discriminate].
      injection Hf as <-. lra. }
  destruct (Rgtb _ _) eqn:H2.
  { apply Rgtb_true in H2. simpl; split; [| reflexivity].
    intros _; exists f; split; [reflexivity | right; exists cap; auto]. }
  apply Rgtb_false in H2. simpl; split; [discriminate |].
  intros [f' [Hf [Hbad | [cap' [Hc Hbad]]]]]; injection Hf as <-; [lra |].
  injection Hc as <-. lra.
Qed.

Lemma RILAMaxLossGate_halts :
  status (RILAMaxLossGate_check result context) = HALT
  <-> exists r, result = RILAResult r
        /\ (RILA.max_loss r < 0 \/ RILA.max_loss r > 1).
Proof.
  unfold RILAMaxLossGate_check.
  destruct result as [p | f | r];
    try (simpl; split; [discriminate | intros [r' [H _]]; discriminate]).
  destruct (Rltb _ 0) eqn:H1.
  { apply Rltb_true in H1. simpl; split; [| reflexivity].
    intros _; exists r; split; [reflexivity | now left]. }
  apply Rltb_false in H1.
  destruct (Rgtb _ 1) eqn:H2.
  { apply Rgtb_true in H2. simpl; split; [| reflexivity].
    intros _; exists r; split; [reflexivity | now right]. }
  apply Rgtb_false in H2.
  assert (Hno : forall g, status g <> HALT ->
            (status g = HALT
             <-> exists r', RILAResult r = RILAResult r'
                   /\ (RILA.max_loss r' < 0 \/ RILA.max_loss r' > 1))).
  { intros g Hg. split; [intros H; now elim Hg |].
    intros [r' [Hr Hbad]]. injection Hr as <-. lra. }
  apply Hno.
  destruct (ctx_buffer_rate context) as [b |]; [| discriminate].
  destruct (String.eqb _ "buffer");
    [destruct (Rgtb _ _); discriminate |].
  destruct (String.eqb _ "floor"); [destruct (Rgtb _ _) |]; discriminate.
Qed.

Lemma RILAProtectionValueGate_halts (pct : R) :
  status (RILAProtectionValueGate_check pct result context) = HALT
  <-> exists r, result = RILAResult r /\ RILA.protection_value r < 0.
Proof.
  unfold RILAProtectionValueGate_check.
  destruct result as [p | f | r];
    try (simpl; split; [discriminate | intros [r' [H _]]; discriminate]).
  destruct (Rltb _ 0) eqn:H1.
  { apply Rltb_true in H1. simpl; split; [| reflexivity].
    intros _; exists r; split; [reflexivity | assumption]. }
  apply Rltb_false in H1.
  assert (Hrest : forall g, status g <> HALT ->
            (status g = HALT
             <-> exists r', RILAResult r = RILAResult r'
                   /\ RILA.protection_value r' < 0)).
  { intros g Hg. split; [intros H; now elim Hg |].
    intros [r' [Hr Hbad]]. injection Hr as <-. lra. }
  apply Hrest. destruct (Rgtb _ _); discriminate.
Qed.

Lemma ArbitrageBoundsGate_halts :
  status (ArbitrageBoundsGate_check result context) = HALT
  <-> (exists f, result = FIAResult f
         /\ FIA.embedded_option_value f > get_premium context)
      \/ (exists r, result = RILAResult r
            /\ ((RILA.max_loss r <> 0
                 /\ RILA.protection_value r
                    > get_premium context * RILA.max_loss r)
                \/ (RILA.max_loss r = 0
                    /\ RILA.protection_value r > get_premium context))).
Proof.
  unfold ArbitrageBoundsGate_check.
  destruct result as [p | f | r].
  - simpl; split; [discriminate |].
    intros [[f [H _]] | [r [H _]]]; discriminate.
  - destruct (Rgtb _ _) eqn:H1.
    + apply Rgtb_true in H1. simpl; split; [| reflexivity].
      intros _; left; exists f; auto.
    + apply Rgtb_false in H1. simpl; split; [discriminate |].
      intros [[f' [Hf Hbad]] | [r [H _]]]; [| discriminate].
      injection Hf as <-. lra.
  - unfold truthy. destruct (Req_dec_T (RILA.max_loss r) 0) as [Hz | Hnz].
    + destruct (Rgtb _ _) eqn:H1.
      * apply Rgtb_true in H1. simpl; split; [| reflexivity].
        intros _; right; exists r; split; [reflexivity | right; auto].
      * apply Rgtb_false in H1. simpl; split; [discriminate |].
        intros [[f [H _]] | [r' [Hr Hbad]]]; [discriminate |].
        injection Hr as <-. destruct Hbad as [[Hnz _] | [_ Hbad]];
          [contradiction | lra].
    + destruct (Rgtb _ _) eqn:H1.
      * apply Rgtb_true in H1. simpl; split; [| reflexivity].
        intros _; right; exists r; split; [reflexivity | left; auto].
      * apply Rgtb_false in H1. simpl; split; [discriminate |].
        intros [[f [H _]] | [r' [Hr Hbad]]]; [discriminate |].
        injection Hr as <-. destruct Hbad as [[_ Hbad] | [Hz _]];
          [lra | contradiction].
Qed.

End GateFacts.

(** X12.  The report of the default gate set is HALT overall exactly under
    the HALT conditions the seven gates implement: present value below 0
    or above 10 times the premium, duration below 0 or above 30; for an FIA
    result expected credit below -0.001 or above a given cap + 0.02, or an
    embedded option value above the premium; for a RILA result max_loss
    outside [0, 1], negative protection value, or protection value above
    premium * max_loss (above the whole premium when max_loss is 0). *)
Theorem default_report_halts_iff (result : Gates.AnyResult)
    (context : Gates.GateContext) :
  Gates.overall_status (Gates.validate_pricing_result result context)
  = Gates.HALT
  <-> GatesExt.halt_condition result context.
Proof.
  rewrite overall_status_HALT_iff.
  unfold Gates.validate_pricing_result.
  pose proof (PresentValueBoundsGate_halts result context 0 10) as Hpv.
  pose proof (DurationBoundsGate_halts result context 30) as Hdur.
  pose proof (FIAOptionBudgetGate_never_halts 0.50 result context) as Hbud.
  pose proof (FIAExpectedCreditGate_halts result context) as Hec.
  pose proof (RILAMaxLossGate_halts result context) as Hml.
  pose proof (RILAProtectionValueGate_halts result context 0.50) as Hprot.
  pose proof (ArbitrageBoundsGate_halts result context) as Harb.
  unfold GatesExt.halt_condition, GatesExt.base_halt, GatesExt.fia_halt,
    GatesExt.rila_halt.
  split.
  - intros [r [Hin Hs]]. apply validate_results in Hin.
    destruct Hin as [g [Hg <-]]. simpl in Hg.
    destruct Hg as [<- | [<- | [<- | [<- | [<- | [<- | [<- | []]]]]]]];
      simpl in Hs.
    + apply Hpv in Hs. left; tauto.
    + apply Hdur in Hs. left; tauto.
    + contradiction.
    + apply Hec in Hs. destruct Hs as [f [-> Hs]]. right; tauto.
    + apply Hml in Hs. destruct Hs as [r [-> Hs]]. right; tauto.
    + apply Hprot in Hs. destruct Hs as [r [-> Hs]]. right; tauto.
    + apply Harb in Hs. destruct Hs as [[f [-> Hs]] | [r [-> Hs]]]; right; tauto.
  - assert (Hrun : forall g,
              In g Gates._default_gates ->
              Gates.status (Gates.check g result context) = Gates.HALT ->
              exists r,
                In r (Gates.results
                        (Gates.validate (Gates.new_ValidationEngine None)
                           result context))
                /\ Gates.status r = Gates.HALT).
    { intros g Hg Hs. eexists; split; [| exact Hs].
      apply validate_results. exists g; split; [exact Hg | reflexivity]. }
    intros [Hbase | Hkind].
    + destruct Hbase as [H | [H | H]].
      * apply (Hrun (Gates.PresentValueBoundsGate 0 10)); [simpl; tauto |].
        apply Hpv; tauto.
      * apply (Hrun (Gates.PresentValueBoundsGate 0 10)); [simpl; tauto |].
        apply Hpv; tauto.
      * apply (Hrun (Gates.DurationBoundsGate 30)); [simpl; tauto |].
        apply Hdur; exact H.
    + destruct result as [p | f | r]; [contradiction | |].
      * destruct Hkind as [H | [H | H]].
        -- apply (Hrun Gates.FIAExpectedCreditGate); [simpl; tauto |].
           apply Hec. exists f; tauto.
        -- apply (Hrun Gates.FIAExpectedCreditGate); [simpl; tauto |].
           apply Hec. exists f; tauto.
        -- apply (Hrun Gates.ArbitrageBoundsGate); [simpl; tauto |].
           apply Harb. left; exists f; tauto.
      * destruct Hkind as [H | [H | [H | [H | H]]]].
        -- apply (Hrun Gates.RILAMaxLossGate); [simpl; tauto |].
           apply Hml. exists r; tauto.
        -- apply (Hrun Gates.RILAMaxLossGate); [simpl; tauto |].
           apply Hml. exists r; tauto.
        -- apply (Hrun (Gates.RILAProtectionValueGate 0.50)); [simpl; tauto |].
           apply Hprot. exists r; tauto.
        -- apply (Hrun Gates.ArbitrageBoundsGate); [simpl; tauto |].
           apply Harb. right; exists r; tauto.
        -- apply (Hrun Gates.ArbitrageBoundsGate); [simpl; tauto |].
           apply Harb. right; exists r; tauto.
Qed.

(** X13.  [validate_and_raise] hands back the result it was given exactly
    when no gate of the engine halts; warnings do not make it raise. *)
Theorem validate_and_raise_ok_iff (engine : Gates.ValidationEngine)
    (result : Gates.AnyResult) (context : Gates.GateContext) :
  (Gates.validate_and_raise engine result context = Ok result
   <-> forall g, In g (Gates.gates engine) ->
         Gates.status (Gates.check g result context) <> Gates.HALT)
  /\ (is_ok (Gates.validate_and_raise engine result context) = false
      <-> exists g, In g (Gates.gates engine)
            /\ Gates.status (Gates.check g result context) = Gates.HALT).
Proof.
  set (halting := exists g, In g (Gates.gates engine)
                    /\ Gates.status (Gates.check g result context)
                       = Gates.HALT).
  assert (Hiff : Gates.overall_status (Gates.validate engine result context)
                 = Gates.HALT <-> halting).
  { rewrite overall_status_HALT_iff. split.
    - intros [r [Hr Hs]]. apply validate_results in Hr.
      destruct Hr as [g [Hg <-]]. exists g; auto.
    - intros [g [Hg Hs]]. eexists; split; [| exact Hs].
      apply validate_results; eauto. }
  unfold Gates.validate_and_raise, Gates.passed.
  destruct (Gates.overall_status (Gates.validate engine result context));
    simpl.
  - split; split.
    + intros _ g Hg Hbad.
      assert (Hh : halting) by (exists g; auto). apply Hiff in Hh.
      discriminate Hh.
    + reflexivity.
    + discriminate.
    + intros Hh. apply Hiff in Hh. discriminate Hh.
  - destruct (proj1 Hiff eq_refl) as [g [Hg Hbad]]. split; split.
    + discriminate.
    + intros H. now elim (H g Hg).
    + intros _. exists g; auto.
    + reflexivity.
  - split; split.
    + intros _ g Hg Hbad.
      assert (Hh : halting) by (exists g; auto). apply Hiff in Hh.
      discriminate Hh.
    + reflexivity.
    + discriminate.
    + intros Hh. apply Hiff in Hh. discriminate Hh.
Qed.

(** X14.  A report counts as passed exactly when its list of halted gates
    is empty, and the halted gates are exactly the results with status
    HALT; so whenever [validate_and_raise] raises there is a halted gate
    to report. *)
Theorem passed_iff_no_halted_gates (rep : Gates.ValidationReport) :
  (Gates.passed rep = true <-> Gates.halted_gates rep = [])
  /\ (forall r, In r (Gates.halted_gates rep)
                <-> In r (Gates.results rep) /\ Gates.status r = Gates.HALT).
Proof.
  assert (Hmem : forall r, In r (Gates.halted_gates rep)
                   <-> In r (Gates.results rep)
                       /\ Gates.status r = Gates.HALT).
  { intros r. unfold Gates.halted_gates. rewrite filter_In.
    now rewrite GateStatus_eqb_eq. }
  split; [| exact Hmem].
  unfold Gates.passed.
  pose proof (overall_status_HALT_iff rep) as Hhalt.
  destruct (Gates.overall_status rep); simpl.
  - split; [intros _ | reflexivity].
    destruct (Gates.halted_gates rep) as [| r rest] eqn:Hg; [reflexivity |].
    assert (Hin : In r (r :: rest)) by now left.
    apply Hmem in Hin. assert (Gates.PASS = Gates.HALT); [| discriminate].
    apply Hhalt. exists r; exact Hin.
  - split; [discriminate |]. intros Hnil.
    destruct (proj1 Hhalt eq_refl) as [r Hr]. apply Hmem in Hr.
    rewrite Hnil in Hr. contradiction.
  - split; [intros _ | reflexivity].
    destruct (Gates.halted_gates rep) as [| r rest] eqn:Hg; [reflexivity |].
    assert (Hin : In r (r :: rest)) by now left.
    apply Hmem in Hin. assert (Gates.WARN = Gates.HALT); [| discriminate].
    apply Hhalt. exists r; exact Hin.
Qed.

(** X15.  For a result that is neither an FIA nor a RILA result the
    product-specific gates skip, so the default report is PASS or HALT,
    never WARN. *)
Theorem plain_result_never_warns (p : ProductsBase.PricingResult)
    (context : Gates.GateContext) :
  Gates.overall_status
    (Gates.validate_pricing_result (Gates.PlainResult p) context)
  <> Gates.WARN.
Proof.
  intros Hwarn. apply overall_status_WARN_iff in Hwarn.
  destruct Hwarn as [_ [r [Hin Hs]]].
  apply validate_results in Hin. destruct Hin as [g [Hg <-]].
  simpl in Hg.
  destruct Hg as [<- | [<- | [<- | [<- | [<- | [<- | [<- | []]]]]]]];
    simpl in Hs; try discriminate Hs.
  - unfold Gates.PresentValueBoundsGate_check in Hs.
    destruct (Rltb _ _); [discriminate Hs |].
    destruct (Rgtb _ _); discriminate Hs.
  - unfold Gates.DurationBoundsGate_check in Hs.
    destruct (ProductsBase.duration _); [| discriminate Hs].
    destruct (Rltb _ _); [discriminate Hs |].
    destruct (Rgtb _ _); discriminate Hs.
Qed.

(* ------------------------------------------------------------------ *)
(** ** Pricers and the gates on their results *)

Section RilaPriceFacts.
Import Schemas ProductsBase RILA.

Variable is_buffer : RILAProduct -> bool.
Variable _price_protection : RILAPricer -> bool -> R -> R -> R -> outcome R.
Variable _price_upside : RILAPricer -> option R -> R -> R -> outcome R.
Variable _calculate_expected_return :
  RILAPricer -> bool -> R -> option R -> R -> outcome R.
Variable _calculate_breakeven :
  RILAPricer -> bool -> R -> option R -> option R.

Let price_rila :=
  price is_buffer _price_protection _price_upside _calculate_expected_return
    _calculate_breakeven.

Lemma rila_price_inv (self : RILAPricer) (product : RILAProduct)
    (term_years : option R) (premium : R) (res : RILAPricingResult) :
  price_rila self (IsRILA product) term_years premium = Ok res ->
  exists t rate,
    resolve_term_years product term_years = Ok t
    /\ buffer_rate product = Some rate
    /\ duration (rila_base res) = Some t
    /\ max_loss res = (if is_buffer product then 1 - rate else rate).
Proof.
  unfold price_rila, price; intros Hprice.
  apply bind_Ok_inv in Hprice; destruct Hprice as [t [Ht Hprice]].
  apply bind_Ok_inv in Hprice; destruct Hprice as [rate [Hrate Hprice]].
  apply bind_Ok_inv in Hprice; destruct Hprice as [pv [_ Hprice]].
  apply bind_Ok_inv in Hprice; destruct Hprice as [uv [_ Hprice]].
  apply bind_Ok_inv in Hprice; destruct Hprice as [er [_ Hprice]].
  injection Hprice as <-.
  exists t, rate. split; [exact Ht |]. split.
  { destruct (is_buffer product); destruct (buffer_rate product);
      simpl in Hrate; congruence. }
  split; reflexivity.
Qed.

Lemma resolve_term_years_inv (product : RILAProduct) (term_years : option R)
    (t : R) :
  resolve_term_years product term_years = Ok t ->
  0 < t
  /\ (term_years = Some t
      \/ (term_years = None
          /\ exists z, rila_term_years product = Some z /\ t = IZR z)).
Proof.
  unfold resolve_term_years.
  destruct term_years as [t' |].
  - destruct (Rleb t' 0) eqn:Hle; [discriminate |].
    apply Rleb_false in Hle. intros H; injection H as <-. auto.
  - destruct (rila_term_years product) as [z |]; [| discriminate].
    destruct (Rleb (IZR z) 0) eqn:Hle; [discriminate |].
    apply Rleb_false in Hle. intros H; injection H as <-.
    split; [assumption |]. right; split; [reflexivity |]. exists z; auto.
Qed.

(** X16.  The RILA pricer does not check the range of the buffer or floor
    rate; the max-loss gate does.  On the result of an accepted product
    with rate b the gate answers HALT exactly when b lies outside [0, 1],
    for buffers and floors alike and whatever the context. *)
Theorem rila_rate_range_is_checked_by_gate (self : RILAPricer)
    (product : RILAProduct) (term_years : option R) (premium : R)
    (res : RILAPricingResult) (context : Gates.GateContext) :
  price_rila self (IsRILA product) term_years premium = Ok res ->
  exists rate,
    buffer_rate product = Some rate
    /\ (Gates.status (Gates.RILAMaxLossGate_check (Gates.RILAResult res) context)
        = Gates.HALT
        <-> rate < 0 \/ rate > 1).
Proof.
  intros Hprice.
  destruct (rila_price_inv _ _ _ _ _ Hprice) as [t [rate [_ [Hrate [_ Hml]]]]].
  exists rate. split; [exact Hrate |].
  rewrite RILAMaxLossGate_halts. split.
  - intros [r [Hr Hbad]]. injection Hr as <-. rewrite Hml in Hbad.
    destruct (is_buffer product); lra.
  - intros Hbad. exists res. split; [reflexivity |]. rewrite Hml.
    destruct (is_buffer product); lra.
Qed.

(** X17.  An accepted RILA pricing has a positive term: the explicit
    argument when one is given (the product's own term is then not
    consulted), otherwise the product's term; the result's duration is that
    term, so the duration gate can halt it only for exceeding its maximum. *)
Theorem rila_term_is_positive (self : RILAPricer) (product : RILAProduct)
    (term_years : option R) (premium : R) (res : RILAPricingResult)
    (context : Gates.GateContext) (max_duration : R) :
  price_rila self (IsRILA product) term_years premium = Ok res ->
  exists t,
    0 < t
    /\ (term_years = Some t
        \/ (term_years = None
            /\ exists z, rila_term_years product = Some z /\ t = IZR z))
    /\ duration (rila_base res) = Some t
    /\ (Gates.status
          (Gates.DurationBoundsGate_check max_duration (Gates.RILAResult res)
             context) = Gates.HALT
        <-> t > max_duration).
Proof.
  intros Hprice.
  destruct (rila_price_inv _ _ _ _ _ Hprice) as [t [rate [Ht [_ [Hdur _]]]]].
  destruct (resolve_term_years_inv _ _ _ Ht) as [Hpos Hsrc].
  exists t. split; [exact Hpos |]. split; [exact Hsrc |].
  split; [exact Hdur |].
  rewrite DurationBoundsGate_halts; simpl. rewrite Hdur. split.
  - intros [d [Hd Hbad]]. injection Hd as <-. lra.
  - intros Hbad. exists t; auto.
Qed.

End RilaPriceFacts.

Lemma rila_rate_range_is_checked_by_gate_witness :
  exists res,
    RILA.price sample_is_buffer (fun _ _ _ _ _ => Ok 3) (fun _ _ _ _ => Ok 5)
      (fun _ _ _ _ _ => Ok 0.04) (fun _ _ _ _ => None)
      sample_rila_pricer (Schemas.IsRILA wide_buffer_product) (Some 1) 100
    = Ok res
    /\ Gates.status
         (Gates.RILAMaxLossGate_check (Gates.RILAResult res)
            (Gates.mkGateContext None None None))
       = Gates.HALT.
Proof.
  destruct (RILA.price sample_is_buffer (fun _ _ _ _ _ => Ok 3)
              (fun _ _ _ _ => Ok 5) (fun _ _ _ _ _ => Ok 0.04)
              (fun _ _ _ _ => None) sample_rila_pricer
              (Schemas.IsRILA wide_buffer_product) (Some 1) 100)
    as [res | msg] eqn:Hprice.
  - exists res; split; [reflexivity |].
    destruct (rila_rate_range_is_checked_by_gate _ _ _ _ _ _ _ _ _ _
                (Gates.mkGateContext None None None) Hprice)
      as [rate [Hrate Hiff]].
    simpl in Hrate; injection Hrate as <-.
    apply Hiff. right; lra.
  - exfalso.
    unfold RILA.price, RILA.resolve_term_years in Hprice.
    assert (H : Rleb 1 0 = false) by (apply Rleb_false; lra).
    rewrite H in Hprice. discriminate Hprice.
Defined.

Lemma rila_term_is_positive_witness :
  exists res,
    RILA.price sample_is_buffer (fun _ _ _ _ _ => Ok 3) (fun _ _ _ _ => Ok 5)
      (fun _ _ _ _ _ => Ok 0.04) (fun _ _ _ _ => None)
      sample_rila_pricer (Schemas.IsRILA buffer_product) (Some 6) 100
    = Ok res
    /\ ProductsBase.duration (RILA.rila_base res) = Some 6.
Proof.
  destruct (RILA.price sample_is_buffer (fun _ _ _ _ _ => Ok 3)
              (fun _ _ _ _ => Ok 5) (fun _ _ _ _ _ => Ok 0.04)
              (fun _ _ _ _ => None) sample_rila_pricer
              (Schemas.IsRILA buffer_product) (Some 6) 100)
    as [res | msg] eqn:Hprice.
  - exists res; split; [reflexivity |].
    destruct (rila_term_is_positive _ _ _ _ _ _ _ _ _ _
                (Gates.mkGateContext None None None) 30 Hprice)
      as [t [_ [[Hsrc | [Hsrc _]] [Hdur _]]]]; [| discriminate Hsrc].
    injection Hsrc as <-. exact Hdur.
  - exfalso.
    unfold RILA.price, RILA.resolve_term_years in Hprice.
    assert (H : Rleb 6 0 = false) by (apply Rleb_false; lra).
    rewrite H in Hprice. discriminate Hprice.
Defined.

Section FiaPriceFacts.
Import Schemas ProductsBase FIA.

Variable _price_embedded_option :
  FIAPricer -> string -> params -> R -> R -> outcome R.
Variable _calculate_expected_credit :
  FIAPricer -> string -> params -> R -> outcome R.
Variable _solve_fair_cap : FIAPricer -> R -> R -> R -> outcome (option R).
Variable _solve_fair_participation :
  FIAPricer -> R -> R -> R -> outcome (option R).

Let price_fia :=
  price _price_embedded_option _calculate_expected_credit _solve_fair_cap
    _solve_fair_participation.

(** X18.  The FIA pricer checks neither the term nor the premium.  An
    accepted pricing carries the term as its duration and premium times
    the budget percentage as its option budget, so a negative term gives a
    result the default gates halt, and a budget of zero or less gives a
    result the budget gate warns about. *)
Theorem fia_term_and_budget_unchecked (self : FIAPricer)
    (product : FIAProduct) (term_years premium : R) (res : FIAPricingResult)
    (context : Gates.GateContext) :
  price_fia self (IsFIA product) term_years premium = Ok res ->
  duration (fia_base res) = Some term_years
  /\ option_budget res = premium * option_budget_pct self
  /\ (term_years < 0 ->
      Gates.overall_status
        (Gates.validate_pricing_result (Gates.FIAResult res) context)
      = Gates.HALT)
  /\ (premium * option_budget_pct self <= 0 ->
      Gates.status
        (Gates.FIAOptionBudgetGate_check 0.50 (Gates.FIAResult res) context)
      = Gates.WARN).
Proof.
  unfold price_fia, price; intros Hprice.
  apply bind_Ok_inv in Hprice; destruct Hprice as [[method ps] [_ Hprice]].
  apply bind_Ok_inv in Hprice; destruct Hprice as [ev [_ Hprice]].
  apply bind_Ok_inv in Hprice; destruct Hprice as [ec [_ Hprice]].
  apply bind_Ok_inv in Hprice; destruct Hprice as [fc [_ Hprice]].
  apply bind_Ok_inv in Hprice; destruct Hprice as [fp [_ Hprice]].
  injection Hprice as <-.
  split; [reflexivity |]. split; [reflexivity |]. split.
  - intros Hneg. apply overall_status_HALT_iff.
    eexists; split.
    + apply validate_results. exists (Gates.DurationBoundsGate 30).
      split; [simpl; tauto | reflexivity].
    + apply DurationBoundsGate_halts. eexists; split; [reflexivity |].
      left; exact Hneg.
  - intros Hbudget. unfold Gates.FIAOptionBudgetGate_check; simpl.
    apply Rleb_true in Hbudget. rewrite Hbudget. reflexivity.
Qed.

End FiaPriceFacts.

Lemma fia_term_and_budget_unchecked_witness :
  exists res,
    FIA.price (fun _ _ _ _ _ => Ok 2) (fun _ _ _ _ => Ok 0.05)
      (fun _ _ _ _ => Ok (Some 0.1)) (fun _ _ _ _ => Ok (Some 0.4))
      sample_fia_pricer (Schemas.IsFIA cap_product) (-1) 100 = Ok res
    /\ Gates.overall_status
         (Gates.validate_pricing_result (Gates.FIAResult res)
            (Gates.mkGateContext None None None))
       = Gates.HALT.
Proof.
  eexists. split; [reflexivity |].
  refine (proj1 (proj2 (proj2
            (fia_term_and_budget_unchecked
               (fun _ _ _ _ _ => Ok 2) (fun _ _ _ _ => Ok 0.05)
               (fun _ _ _ _ => Ok (Some 0.1)) (fun _ _ _ _ => Ok (Some 0.4))
               sample_fia_pricer cap_product (-1) 100 _
               (Gates.mkGateContext None None None) eq_refl))) _).
  lra.
Defined.

(* ------------------------------------------------------------------ *)
(** ** Scenario generator: guards, shapes, composition *)


Lemma gbm_returns_row (ep : Scenarios.EquityParams)
    (draw : nat -> nat -> R) (n T i : nat) :
  (i < n)%nat ->
  nth i (Scenarios._generate_gbm_returns ep
           (Scenarios.standard_normal draw n T)) []
  = map (fun t =>
           exp ((Scenarios.mu ep - 0.5 * Scenarios.equity_sigma ep ^ 2)
                + Scenarios.equity_sigma ep * draw i t) - 1)
      (seq 0 T).
Proof.
  intros Hi. unfold Scenarios._generate_gbm_returns.
  match goal with
  | |- context [map (map ?f) _] =>
      change (@nil R) with (map f []) at 1; rewrite map_nth
  end.
  rewrite standard_normal_row by assumption. now rewrite map_map.
Qed.

(** X20.  Every scenario bundle that [generate_ag43_scenarios] returns has
    one scenario per index with ids 0, 1, ..., each with one rate and one
    equity return per projection year, and every equity return is above
    -100%. *)
Theorem ag43_scenario_shape (self : Scenarios.ScenarioGenerator)
    (initial_rate : R) (rate_params : option Scenarios.VasicekParams)
    (equity_params : option Scenarios.EquityParams) (correlation : R)
    (draw1 draw2 : nat -> nat -> R) (sc : Scenarios.AG43Scenarios) :
  Scenarios.generate_ag43_scenarios self initial_rate rate_params
    equity_params correlation draw1 draw2 = Ok sc ->
  let n := Scenarios.n_scenarios self in
  let T := Scenarios.projection_years self in
  List.length (Scenarios.scenarios sc) = n
  /\ Scenarios.n_scenarios_of sc = Z.of_nat n
  /\ Scenarios.projection_years_of sc = Z.of_nat T
  /\ forall i, (i < n)%nat ->
       let s := nth i (Scenarios.scenarios sc)
                  (Scenarios.mkEconomicScenario [] [] 0) in
       Scenarios.scenario_id s = Z.of_nat i
       /\ List.length (Scenarios.rates s) = T
       /\ List.length (Scenarios.equity_returns s) = T
       /\ Forall (fun x => -1 < x) (Scenarios.equity_returns s).
Proof.
  intros Hgen n T.
  assert (Hcorr : -1 <= correlation <= 1).
  { assert (Hok : is_ok (Scenarios.generate_ag43_scenarios self initial_rate
                           rate_params equity_params correlation draw1 draw2)
                  = true) by (rewrite Hgen; reflexivity).
    unfold Scenarios.generate_ag43_scenarios in Hok.
    destruct (Rleb (-1) correlation) eqn:H1; [| discriminate].
    destruct (Rleb correlation 1) eqn:H2; [| discriminate].
    apply Rleb_true in H1, H2. lra. }
  rewrite (ag43_scenarios_eq self initial_rate rate_params equity_params
             correlation draw1 draw2 Hcorr) in Hgen.
  injection Hgen as <-. cbn [Scenarios.scenarios Scenarios.n_scenarios_of
                               Scenarios.projection_years_of].
  fold n; fold T.
  split; [now rewrite length_map, length_seq |].
  split; [reflexivity |]. split; [reflexivity |].
  intros i Hi. cbv zeta. rewrite nth_map_seq by assumption.
  cbn [Scenarios.scenario_id Scenarios.rates Scenarios.equity_returns Nat.add].
  split; [reflexivity |].
  split; [now rewrite vasicek_row_length, length_map, length_seq |].
  rewrite !scale_standard_normal, add_standard_normal.
  rewrite gbm_returns_row by assumption.
  split; [now rewrite length_map, length_seq |].
  apply Forall_forall; intros x Hx. apply in_map_iff in Hx.
  destruct Hx as [t [<- _]].
  match goal with |- -1 < exp ?e - 1 => pose proof (exp_pos e) end. lra.
Qed.

Lemma ag43_scenario_shape_witness :
  exists sc,
    Scenarios.generate_ag43_scenarios
      (Scenarios.mkScenarioGenerator 2 3 (Some 42%Z)) 0.04 None None (-0.20)
      (fun _ _ => 1) (fun _ _ => -1) = Ok sc
    /\ List.length (Scenarios.scenarios sc) = 2%nat.
Proof.
  destruct (Scenarios.generate_ag43_scenarios
              (Scenarios.mkScenarioGenerator 2 3 (Some 42%Z)) 0.04 None None
              (-0.20) (fun _ _ => 1) (fun _ _ => -1)) as [sc | msg] eqn:Hgen.
  - exists sc; split; [reflexivity |].
    exact (proj1 (ag43_scenario_shape _ _ _ _ _ _ _ _ Hgen)).
  - exfalso.
    rewrite ag43_scenarios_eq in Hgen by lra. discriminate Hgen.
Defined.



(** X22.  Without rate volatility (sigma_r = 0), with 0 <= kappa <= 1,
    theta >= 0 and an initial rate >= 0, the floor at zero never binds
    and the rate path closes the gap to theta geometrically:
    r_t = theta + (1 - kappa)^t * (r_0 - theta), whatever the shocks. *)
Theorem vasicek_without_volatility_decays (params : Scenarios.VasicekParams)
    (initial_rate : R) (shocks : list R) (t : nat) :
  Scenarios.vasicek_sigma params = 0 ->
  0 <= Scenarios.kappa params <= 1 ->
  0 <= Scenarios.theta params ->
  0 <= initial_rate ->
  (t < List.length shocks)%nat ->
  nth t (Scenarios.vasicek_row params initial_rate shocks) 0
  = Scenarios.theta params
    + (1 - Scenarios.kappa params) ^ (S t)
      * (initial_rate - Scenarios.theta params).
Proof.
  intros Hsig Hk Hth.
  revert initial_rate t; induction shocks as [| z rest IH];
    intros r0 t Hr0 Ht; simpl in Ht; [lia |].
  assert (Hnew : Rmax (r0 + Scenarios.kappa params
                            * (Scenarios.theta params - r0)
                       + Scenarios.vasicek_sigma params * z) 0
                 = Scenarios.theta params
                   + (1 - Scenarios.kappa params)
                     * (r0 - Scenarios.theta params)).
  { rewrite Hsig. rewrite Rmax_left by nra. lra. }
  destruct t as [| t]; cbn [Scenarios.vasicek_row nth].
  - rewrite Hnew. simpl; lra.
  - rewrite Hnew. rewrite IH by (try lia; nra).
    simpl; lra.
Qed.

Lemma vasicek_without_volatility_decays_witness :
  nth 1 (Scenarios.vasicek_row (Scenarios.mkVasicekParams 0.5 0.04 0) 0.08
           [3; -2; 7]) 0
  = 0.04 + (1 - 0.5) ^ 2 * (0.08 - 0.04).
Proof.
  apply (vasicek_without_volatility_decays
           (Scenarios.mkVasicekParams 0.5 0.04 0) 0.08 [3; -2; 7] 1);
    simpl; try lra; lia.
Defined.


Section DeterministicFacts.
Import Scenarios ScenariosExt.

Lemma np_full_ok (n : Z) (v : R) :
  (0 <= n)%Z -> np_full n v = Ok (repeat v (Z.to_nat n)).
Proof.
  intros Hn. unfold np_full.
  destruct (Z.ltb_spec n 0); [lia | reflexivity].
Qed.

Lemma new_EconomicScenario_repeat (x y : R) (n : nat) (id : Z) :
  new_EconomicScenario (repeat x n) (repeat y n) id
  = Ok (mkEconomicScenario (repeat x n) (repeat y n) id).
Proof.
  unfold new_EconomicScenario. now rewrite !repeat_length, Nat.eqb_refl.
Qed.

Lemma deterministic_scenarios_eq (n_years : Z) (base_rate base_equity : R) :
  (0 <= n_years)%Z ->
  generate_deterministic_scenarios n_years base_rate base_equity
  = Ok [ mkEconomicScenario (repeat base_rate (Z.to_nat n_years))
           (repeat base_equity (Z.to_nat n_years)) 0;
         mkEconomicScenario (repeat (base_rate + 0.02) (Z.to_nat n_years))
           (repeat (base_equity - 0.02) (Z.to_nat n_years)) 1;
         mkEconomicScenario
           (repeat (Rmax 0 (base_rate - 0.02)) (Z.to_nat n_years))
           (repeat (base_equity + 0.02) (Z.to_nat n_years)) 2 ].
Proof.
  intros Hn. unfold generate_deterministic_scenarios.
  rewrite !np_full_ok by assumption. cbn [bind].
  rewrite !new_EconomicScenario_repeat. reflexivity.
Qed.

End DeterministicFacts.

(** X24.  [generate_deterministic_scenarios] raises for a negative number
    of years and otherwise returns three scenarios with ids 0, 1, 2, each
    constant over the years: (rate, equity) = (base, base),
    (base + 0.02, base - 0.02) and (max(0, base - 0.02), base + 0.02).
    Only the rate-down scenario is floored: with at least one year, all
    rates of the three scenarios are >= 0 exactly when the base rate is
    >= 0. *)
Theorem deterministic_scenarios_shape (n_years : Z)
    (base_rate base_equity : R) :
  ((n_years < 0)%Z ->
   is_ok (ScenariosExt.generate_deterministic_scenarios n_years base_rate
            base_equity) = false)
  /\ ((0 <= n_years)%Z ->
      exists base up down,
        ScenariosExt.generate_deterministic_scenarios n_years base_rate
          base_equity = Ok [base; up; down]
        /\ Scenarios.scenario_id base = 0%Z
        /\ Scenarios.scenario_id up = 1%Z
        /\ Scenarios.scenario_id down = 2%Z
        /\ Scenarios.rates base = repeat base_rate (Z.to_nat n_years)
        /\ Scenarios.rates up = repeat (base_rate + 0.02) (Z.to_nat n_years)
        /\ Scenarios.rates down
           = repeat (Rmax 0 (base_rate - 0.02)) (Z.to_nat n_years)
        /\ Scenarios.equity_returns base
           = repeat base_equity (Z.to_nat n_years)
        /\ Scenarios.equity_returns up
           = repeat (base_equity - 0.02) (Z.to_nat n_years)
        /\ Scenarios.equity_returns down
           = repeat (base_equity + 0.02) (Z.to_nat n_years)
        /\ ((0 < n_years)%Z ->
            (Forall (fun x => 0 <= x)
               (Scenarios.rates base ++ Scenarios.rates up
                ++ Scenarios.rates down)%list
             <-> 0 <= base_rate))).
Proof.
  split.
  - intros Hneg. unfold ScenariosExt.generate_deterministic_scenarios,
      ScenariosExt.np_full.
    destruct (Z.ltb_spec n_years 0); [reflexivity | lia].
  - intros Hn. do 3 eexists.
    split; [apply deterministic_scenarios_eq; exact Hn |].
    cbn [Scenarios.scenario_id Scenarios.rates Scenarios.equity_returns].
    repeat (split; [reflexivity |]).
    intros Hpos.
    destruct (Z.to_nat n_years) as [| k] eqn:Hk; [lia |].
    split.
    + intros Hall. simpl in Hall. now inversion Hall.
    + intros Hbase. rewrite !Forall_app. repeat split.
      all: apply Forall_forall; intros x Hx; apply repeat_spec in Hx; subst x.
      * exact Hbase.
      * lra.
      * apply Rmax_l.
Qed.

Lemma deterministic_scenarios_shape_witness :
  exists base up down,
    ScenariosExt.generate_deterministic_scenarios 2 0.01 0.07
    = Ok [base; up; down]
    /\ Scenarios.rates down = [Rmax 0 (0.01 - 0.02); Rmax 0 (0.01 - 0.02)].
Proof.
  destruct (proj2 (deterministic_scenarios_shape 2 0.01 0.07))
    as (base & up & down & Hgen & _ & _ & _ & _ & _ & Hdown & _); [lia |].
  exists base, up, down. split; [exact Hgen | exact Hdown].
Defined.

(* ------------------------------------------------------------------ *)
(** ** GLWB path simulator *)

(** X25.  The default mortality rate is a probability, positive at every
    age, and never decreases with age. *)
Theorem default_mortality_is_monotone_probability (age1 age2 : Z) :
  (age1 <= age2)%Z ->
  0 < PathSimExt._default_mortality age1 <= 1
  /\ PathSimExt._default_mortality age1 <= PathSimExt._default_mortality age2.
Proof.
  intros Hle. unfold PathSimExt._default_mortality; cbv zeta.
  pose proof (exp_pos (0.08 * IZR age1)) as Hpos.
  split.
  - split; [apply Rmin_glb_lt; lra | apply Rmin_r].
  - apply Rle_min_compat_r. apply Rmult_le_compat_l; [lra |].
    assert (Hage : IZR age1 <= IZR age2) by (apply IZR_le; exact Hle).
    destruct (Req_dec (IZR age1) (IZR age2)) as [-> | Hne]; [lra |].
    left. apply exp_increasing. lra.
Qed.

Lemma default_mortality_is_monotone_probability_witness :
  PathSimExt._default_mortality 65 <= PathSimExt._default_mortality 90.
Proof.
  apply (default_mortality_is_monotone_probability 65 90). lia.
Defined.

Section SinglePathFacts.
Import PathSim PathSimExt.

Variable GWBState : Type.
Variable av : GWBState -> R.
Variable gwb : GWBState -> R.
Variable initial_state : GWBConfig -> R -> outcome GWBState.
Variable calculate_max_withdrawal : GWBConfig -> R -> GWBState -> outcome R.
Variable step :
  GWBConfig -> R -> GWBState -> R -> R -> R -> outcome (GWBState * R).
Variable self : GLWBPathSimulator.
Variables (premium r sigma : R).
Variable mortality_table : Z -> R.
Variable utilization_rate : R.
Variables (uniform normal : nat -> R).

Let loop :=
  path_loop GWBState av gwb calculate_max_withdrawal step self premium r sigma
    mortality_table utilization_rate uniform normal.

Lemma path_loop_invariant (years_left t : nat) (state : GWBState)
    (pv_ins pv_w : R) (ruin : Z) (current_age : Z) (res : PathResult) :
  (ruin = (-1)%Z \/ (1 <= ruin <= Z.of_nat t)%Z) ->
  (ruin = (-1)%Z -> pv_ins = 0) ->
  loop years_left t state pv_ins pv_w ruin current_age = Ok res ->
  (ruin_year res = (-1)%Z
   \/ (1 <= ruin_year res <= Z.of_nat (t + years_left))%Z)
  /\ (death_year res = (-1)%Z
      \/ (Z.of_nat t <= death_year res < Z.of_nat (t + years_left))%Z)
  /\ (ruin_year res = (-1)%Z -> pv_insurer_payments res = 0)
  /\ (death_year res <> (-1)%Z -> ruin_year res <> (-1)%Z ->
      (ruin_year res <= death_year res)%Z).
Proof.
  revert t state pv_ins pv_w ruin current_age;
    induction years_left as [| k IH];
    intros t state pv_ins pv_w ruin current_age Hruin Hpv Hloop.
  { unfold loop in Hloop; simpl in Hloop. injection Hloop as <-; simpl.
    repeat split; try tauto; try lia. }
  unfold loop in Hloop; cbn [path_loop] in Hloop; fold loop in Hloop.
  destruct (Rltb (uniform t) (mortality_table current_age)).
  { injection Hloop as <-; simpl. repeat split; try tauto; try lia. }
  apply bind_Ok_inv in Hloop; destruct Hloop as [max_w [_ Hloop]].
  apply bind_Ok_inv in Hloop; destruct Hloop as [[state' taken] [_ Hloop]].
  apply IH in Hloop.
  - replace (t + S k)%nat with (S t + k)%nat by lia.
    destruct Hloop as (H1 & H2 & H3 & H4).
    repeat split; try assumption. lia.
  - destruct (Rleb (av state') 0); simpl; [| lia].
    destruct (Z.ltb_spec ruin 0); lia.
  - destruct (Rleb (av state') 0); simpl; [| exact Hpv].
    destruct (Z.ltb_spec ruin 0); intros; lia.
Qed.

(** X26.  On every simulated path the ruin year is -1 or one of the years
    1 .. n_years, the death year is -1 or one of the years
    0 .. n_years - 1, a path that is never ruined has no insurer payments
    (their present value is exactly 0), and ruin, when both occur, does not
    come after death. *)
Theorem single_path_ruin_accounting (age n_years : Z) (res : PathResult) :
  simulate_single_path GWBState av gwb initial_state calculate_max_withdrawal
    step self premium r sigma mortality_table utilization_rate uniform normal
    age n_years = Ok res ->
  (ruin_year res = (-1)%Z \/ (1 <= ruin_year res <= n_years)%Z)
  /\ (death_year res = (-1)%Z \/ (0 <= death_year res < n_years)%Z)
  /\ (ruin_year res = (-1)%Z -> pv_insurer_payments res = 0)
  /\ (death_year res <> (-1)%Z -> ruin_year res <> (-1)%Z ->
      (ruin_year res <= death_year res)%Z).
Proof.
  unfold simulate_single_path; intros Hsim.
  apply bind_Ok_inv in Hsim; destruct Hsim as [state [_ Hloop]].
  apply path_loop_invariant in Hloop; [| now left | reflexivity].
  destruct Hloop as (H1 & H2 & H3 & H4).
  repeat split; try assumption.
  - destruct H1 as [H1 | H1]; [now left | right; lia].
  - destruct H2 as [H2 | H2]; [now left | right; lia].
Qed.

End SinglePathFacts.

Lemma single_path_ruin_accounting_witness :
  exists res,
    PathSimExt.simulate_single_path (R * R) fst snd toy_initial_state
      toy_max_withdrawal toy_step sample_simulator 100 0.04 0.18
      (fun _ => 0) 1 (fun _ => 0.5) (fun _ => 0) 65 1 = Ok res
    /\ (PathSimExt.ruin_year res = (-1)%Z
        \/ (1 <= PathSimExt.ruin_year res <= 1)%Z).
Proof.
  destruct (PathSimExt.simulate_single_path (R * R) fst snd toy_initial_state
              toy_max_withdrawal toy_step sample_simulator 100 0.04 0.18
              (fun _ => 0) 1 (fun _ => 0.5) (fun _ => 0) 65 1)
    as [res | msg] eqn:Hsim.
  - exists res; split; [reflexivity |].
    exact (proj1 (single_path_ruin_accounting _ _ _ _ _ _ _ _ _ _ _ _ _ _
                    _ _ _ Hsim)).
  - exfalso.
    unfold PathSimExt.simulate_single_path, toy_initial_state in Hsim.
    cbn [bind] in Hsim. change (Z.to_nat 1) with 1%nat in Hsim.
    cbn [PathSimExt.path_loop] in Hsim.
    assert (H : Rltb 0.5 0 = false) by (apply Rltb_false; lra).
    rewrite H in Hsim.
    unfold toy_max_withdrawal, toy_step in Hsim. cbn [bind] in Hsim.
    discriminate Hsim.
Defined.

(* ------------------------------------------------------------------ *)
(** ** RILA payoff behind the breakeven search *)

Section PayoffFacts.
Import RILAExt.

Variable rate : R.
Variable cap_rate : option R.

Lemma payoff_negative_return (is_buffer : bool) (x : R) :
  x < 0 ->
  payoff_minus_principal is_buffer rate cap_rate x
  = if is_buffer
    then (if Rgtb x (- rate) then 0 else x + rate)
    else Rmax x (- rate).
Proof.
  intros Hx. unfold payoff_minus_principal.
  assert (H : Rgeb x 0 = false) by (unfold Rgeb; apply Rleb_false; lra).
  rewrite H. reflexivity.
Qed.

(** X27.  For a rate >= 0 and a negative index return x, the payoff net
    of principal lies between x and 0 for buffers and floors alike.  A
    buffer gives exactly 0 for x >= -rate and x + rate below; a floor gives
    max(x, -rate), which is never below -rate and, for a positive rate,
    always strictly negative: the floor payoff has no root below zero. *)
Theorem protection_payoff_on_losses (is_buffer : bool) (x : R) :
  0 <= rate -> x < 0 ->
  x <= payoff_minus_principal is_buffer rate cap_rate x <= 0
  /\ (- rate <= x -> payoff_minus_principal true rate cap_rate x = 0)
  /\ (x < - rate -> payoff_minus_principal true rate cap_rate x = x + rate)
  /\ payoff_minus_principal false rate cap_rate x = Rmax x (- rate)
  /\ - rate <= payoff_minus_principal false rate cap_rate x
  /\ (0 < rate -> payoff_minus_principal false rate cap_rate x < 0).
Proof.
  intros Hrate Hx.
  rewrite !payoff_negative_return by assumption.
  assert (Hfloor : x <= Rmax x (- rate) <= 0 /\ - rate <= Rmax x (- rate)
                   /\ (0 < rate -> Rmax x (- rate) < 0)).
  { unfold Rmax; destruct (Rle_dec x (- rate)); repeat split; lra. }
  split.
  { destruct is_buffer; [| tauto].
    destruct (Rgtb x (- rate)) eqn:H.
    - apply Rgtb_true in H; lra.
    - apply Rgtb_false in H; lra. }
  split.
  { intros Hin. destruct (Rgtb x (- rate)) eqn:H; [reflexivity |].
    apply Rgtb_false in H. lra. }
  split.
  { intros Hout. destruct (Rgtb x (- rate)) eqn:H; [| reflexivity].
    apply Rgtb_true in H. lra. }
  split; [reflexivity | tauto].
Qed.

(** X28.  Buffer and floor of the same positive rate and cap pay the same
    on gains, and on a loss x < 0 they pay the same only at x = -2 * rate
    (where both give -rate); everywhere else on the loss side they
    differ. *)
Theorem buffer_and_floor_differ_on_losses (x : R) :
  0 < rate ->
  (0 <= x ->
   payoff_minus_principal true rate cap_rate x
   = payoff_minus_principal false rate cap_rate x)
  /\ (x < 0 ->
      (payoff_minus_principal true rate cap_rate x
       = payoff_minus_principal false rate cap_rate x
       <-> x = - 2 * rate)).
Proof.
  intros Hrate. split.
  - intros Hx. unfold payoff_minus_principal.
    assert (H : Rgeb x 0 = true) by (unfold Rgeb; apply Rleb_true; lra).
    now rewrite H.
  - intros Hx. rewrite !payoff_negative_return by assumption.
    unfold Rmax.
    destruct (Rgtb x (- rate)) eqn:H;
      [apply Rgtb_true in H | apply Rgtb_false in H];
      destruct (Rle_dec x (- rate)); split; intros; lra.
Qed.

End PayoffFacts.

Lemma protection_payoff_on_losses_witness :
  RILAExt.payoff_minus_principal true 0.10 (Some 0.15) (-0.15) = -0.15 + 0.10.
Proof.
  assert (H1 : 0 <= 0.10) by lra.
  assert (H2 : -0.15 < 0) by lra.
  destruct (protection_payoff_on_losses 0.10 (Some 0.15) true (-0.15) H1 H2)
    as (_ & _ & Hbelow & _).
  apply Hbelow. lra.
Defined.

Lemma buffer_and_floor_differ_on_losses_witness :
  RILAExt.payoff_minus_principal true 0.10 (Some 0.15) (-0.20)
  = RILAExt.payoff_minus_principal false 0.10 (Some 0.15) (-0.20).
Proof.
  assert (H1 : 0 < 0.10) by lra.
  destruct (buffer_and_floor_differ_on_losses 0.10 (Some 0.15) (-0.20) H1)
    as [_ Hloss].
  apply Hloss; lra.
Defined.

(* ------------------------------------------------------------------ *)
(** ** FIA embedded option and fair participation *)

Section FairTermFacts.
Import Schemas FIA FIAExt.

Variable black_scholes_call : R -> R -> R -> R -> R -> R -> outcome R.
Variable _calculate_d1_d2 : R -> R -> R -> R -> R -> R -> outcome (R * R).
Variable norm_cdf : R -> R.

Let embedded :=
  _price_embedded_option black_scholes_call _calculate_d1_d2 norm_cdf.
Let fair_participation_of := _solve_fair_participation black_scholes_call.

(** X29.  The fair participation rate spends the budget exactly: when the
    at-the-money call is worth c with c / spot >= 1e-10 and the premium is
    not zero, the solver returns (budget / premium) / (c / spot), and a
    participation product with that rate has an embedded option value
    equal to the option budget. *)
Theorem fair_participation_spends_budget (self : FIAPricer)
    (term_years option_budget premium c : R) :
  let m := market_params self in
  0 < spot m -> premium <> 0 ->
  black_scholes_call (spot m) (spot m) (risk_free_rate m) (dividend_yield m)
    (volatility m) term_years = Ok c ->
  1e-10 <= c / spot m ->
  exists p,
    fair_participation_of self term_years option_budget premium = Ok p
    /\ p = option_budget / premium / (c / spot m)
    /\ embedded self "participation"%string
         [("participation_rate"%string, p)] term_years premium
       = Ok option_budget.
Proof.
  intros m Hspot Hprem Hcall Hpct. subst m.
  unfold fair_participation_of, embedded, _solve_fair_participation,
    _price_embedded_option.
  cbv zeta. rewrite Hcall. cbn [bind].
  assert (H1 : Rltb (c / spot (market_params self)) 1e-10 = false)
    by (apply Rltb_false; lra).
  rewrite H1.
  destruct (Req_dec_T premium 0) as [Hz | _]; [contradiction |].
  eexists. split; [reflexivity |]. split; [reflexivity |].
  simpl. f_equal.
  assert (Hc : c <> 0).
  { intros Hc0. rewrite Hc0 in Hpct. unfold Rdiv in Hpct.
    rewrite Rmult_0_l in Hpct. lra. }
  field. repeat split; try assumption; lra.
Qed.

(** X30.  The parameter dict that [_determine_crediting_method] builds
    always holds the key [_price_embedded_option] reads for that method,
    with the product's rate as its value.  So valuing the embedded option
    of a product with a crediting method never raises KeyError: it returns
    exactly when the kernel calls it makes return, which are the
    at-the-money call (cap, participation), the call struck at
    spot * (1 + cap) when the cap is positive, the call struck at
    spot * (1 + spread), and d1/d2 at the money (trigger). *)
Theorem crediting_parameters_are_found (self : FIAPricer)
    (product : FIAProduct) (method : string) (ps : params)
    (term_years premium : R) :
  let m := market_params self in
  let call := fun strike =>
    black_scholes_call (spot m) strike (risk_free_rate m) (dividend_yield m)
      (volatility m) term_years in
  0 < spot m ->
  _determine_crediting_method product = Ok (method, ps) ->
  ((method = "cap"%string /\ lookup ps "cap_rate" = Ok_rate (cap_rate product))
   \/ (method = "participation"%string
       /\ lookup ps "participation_rate"
          = Ok_rate (participation_rate product))
   \/ (method = "spread"%string
       /\ lookup ps "spread_rate" = Ok_rate (spread_rate product))
   \/ (method = "trigger"%string
       /\ lookup ps "trigger_rate"
          = Ok_rate (performance_triggered_rate product)))
  /\ (is_ok (embedded self method ps term_years premium) = true
      <-> (method = "cap"%string ->
           is_ok (call (spot m)) = true
           /\ forall cap, cap_rate product = Some cap -> 0 < cap ->
                          is_ok (call (spot m * (1 + cap))) = true)
          /\ (method = "participation"%string ->
              is_ok (call (spot m)) = true)
          /\ (method = "spread"%string ->
              forall spread, spread_rate product = Some spread ->
                             is_ok (call (spot m * (1 + spread))) = true)
          /\ (method = "trigger"%string ->
              is_ok (_calculate_d1_d2 (spot m) (spot m) (risk_free_rate m)
                       (dividend_yield m) (volatility m) term_years)
              = true)).
Proof.
  intros m call _ Hdet.
  unfold _determine_crediting_method in Hdet.
  unfold embedded, _price_embedded_option. fold m.
  destruct (cap_rate product) as [cap |] eqn:Hcap.
  { injection Hdet as <- <-. split; [left; split; reflexivity |].
    cbn [String.eqb Ascii.eqb Bool.eqb lookup bind]. fold (call (spot m)).
    fold (call (spot m * (1 + cap))).
    split.
    - intros Hok. split; [| repeat split; discriminate].
      intros _. destruct (call (spot m)) as [c | msg]; [| discriminate Hok].
      split; [reflexivity |]. intros cap' [= <-] Hpos.
      apply Rgtb_true in Hpos. cbn [bind] in Hok. rewrite Hpos in Hok.
      destruct (call (spot m * (1 + cap))); [reflexivity | discriminate Hok].
    - intros [Hcalls _]. destruct (Hcalls eq_refl) as [Hatm Hotm].
      destruct (call (spot m)) as [c | msg]; [| discriminate Hatm].
      cbn [bind]. destruct (Rgtb cap 0) eqn:Hpos; [| reflexivity].
      apply Rgtb_true in Hpos. specialize (Hotm cap eq_refl Hpos).
      destruct (call (spot m * (1 + cap))); [reflexivity | discriminate Hotm]. }
  destruct (participation_rate product) as [par |] eqn:Hpar.
  { injection Hdet as <- <-. split; [right; left; split; reflexivity |].
    cbn [String.eqb Ascii.eqb Bool.eqb lookup bind]. fold (call (spot m)).
    split.
    - intros Hok. repeat split; try discriminate.
      intros _. destruct (call (spot m)); [reflexivity | discriminate Hok].
    - intros (_ & Hcalls & _). specialize (Hcalls eq_refl).
      destruct (call (spot m)); [reflexivity | discriminate Hcalls]. }
  destruct (spread_rate product) as [spread |] eqn:Hspread.
  { injection Hdet as <- <-. split; [right; right; left; split; reflexivity |].
    cbn [String.eqb Ascii.eqb Bool.eqb lookup bind].
    fold (call (spot m * (1 + spread))).
    split.
    - intros Hok. repeat split; try discriminate.
      intros _ spread' [= <-].
      destruct (call (spot m * (1 + spread)));
        [reflexivity | discriminate Hok].
    - intros (_ & _ & Hcalls & _). specialize (Hcalls eq_refl spread eq_refl).
      destruct (call (spot m * (1 + spread)));
        [reflexivity | discriminate Hcalls]. }
  destruct (performance_triggered_rate product) as [trig |] eqn:Htrig;
    [| discriminate Hdet].
  injection Hdet as <- <-. split; [right; right; right; split; reflexivity |].
  cbn [String.eqb Ascii.eqb Bool.eqb lookup bind].
  split.
  - intros Hok. repeat split; try discriminate.
    intros _.
    destruct (_calculate_d1_d2 (spot m) (spot m) (risk_free_rate m)
                (dividend_yield m) (volatility m) term_years) as [[d1 d2] | msg];
      [reflexivity | discriminate Hok].
  - intros (_ & _ & _ & Hcalls). specialize (Hcalls eq_refl).
    destruct (_calculate_d1_d2 (spot m) (spot m) (risk_free_rate m)
                (dividend_yield m) (volatility m) term_years) as [[d1 d2] | msg];
      [reflexivity | discriminate Hcalls].
Qed.

End FairTermFacts.

Lemma fair_participation_spends_budget_witness :
  exists p,
    FIAExt._solve_fair_participation (fun _ _ _ _ _ _ => Ok 10)
      sample_fia_pricer 1 3 100 = Ok p
    /\ FIAExt._price_embedded_option (fun _ _ _ _ _ _ => Ok 10)
         (fun _ _ _ _ _ _ => Ok (0, 0)) (fun _ => 0.5) sample_fia_pricer
         "participation" [("participation_rate"%string, p)] 1 100
       = Ok 3.
Proof.
  destruct (fair_participation_spends_budget (fun _ _ _ _ _ _ => Ok 10)
              (fun _ _ _ _ _ _ => Ok (0, 0)) (fun _ => 0.5) sample_fia_pricer
              1 3 100 10) as [p [Hp [_ Hvalue]]];
    try (simpl; lra); try reflexivity.
  exists p; split; assumption.
Defined.

Lemma crediting_parameters_are_found_witness :
  is_ok (FIAExt._price_embedded_option positive_strike_call
           (fun _ _ _ _ _ _ => Raise "ValueError") (fun _ => 0.5)
           sample_fia_pricer "cap" [("cap_rate"%string, 0.08)] 1 100) = true.
Proof.
  assert (Hspot : 0 < FIA.spot (FIA.market_params sample_fia_pricer))
    by (simpl; lra).
  assert (Hdet : FIA._determine_crediting_method cap_product
                 = Ok ("cap"%string, [("cap_rate"%string, 0.08)]))
    by reflexivity.
  apply (proj2 (crediting_parameters_are_found positive_strike_call
                  (fun _ _ _ _ _ _ => Raise "ValueError") (fun _ => 0.5)
                  sample_fia_pricer cap_product "cap"
                  [("cap_rate"%string, 0.08)] 1 100 Hspot Hdet)).
  assert (Hcall : forall k, 0 < k ->
            is_ok (positive_strike_call 100 k 0.05 0.02 0.20 1) = true).
  { intros k Hk. unfold positive_strike_call.
    replace (Rleb k 0) with false by (symmetry; apply Rleb_false; exact Hk).
    reflexivity. }
  repeat split; try discriminate.
  - apply Hcall; simpl; lra.
  - intros cap [= <-] _. apply Hcall; simpl; lra.
Defined.

